(** * Mini-Shell: the command evaluator of [src/cmd.c]

    A shallow embedding of the execution engine and the properties of
    its exit statuses.  The C functions are translated one by one and
    keep their names.  System calls are answered by an operating-system
    model ([OS]) that is a parameter of the whole development; every
    call a process makes is recorded in that process's [history]. *)

From Stdlib Require Import ZArith List Ascii String Bool Lia.
Import ListNotations.
Open Scope Z_scope.
Set Warnings "-register-all".

(** ** The command tree

    The declarations are in [parser.h], which is not among the sources;
    the types below have the fields that [cmd.c] reads, under their C
    names, and follow the data model of the spec (section 3). *)

(** Modelled from the spec: [word_t], the words that the word
    resolution turns into strings.  A word is a chain of parts; [str]
    is the C field [string]; [next_part] is a pointer, [None] standing
    for [NULL]. *)
Inductive word_t : Type :=
| Word (str : string) (next_part : option word_t).

Definition str (w : word_t) : string :=
  match w with Word s _ => s end.

Definition next_part (w : word_t) : option word_t :=
  match w with Word _ n => n end.

(** Modelled from the spec: [simple_command_t], the spec's
    SimpleCommand.  [in_] is the C field [in]; the three targets are
    pointers, absent when [NULL]; the append flags of the targets are
    the one field [io_flags], as [cmd.c] reads it.  [verb] is
    dereferenced without a test everywhere, so it is not optional. *)
Record simple_command_t : Type := mk_simple_command {
  verb : word_t;
  params : option word_t;
  in_ : option word_t;
  out : option word_t;
  err : option word_t;
  io_flags : Z
}.

(** Modelled from the spec: [operator_t], with the enumerators that
    [cmd.c] names, except [OP_NONE], which is the [Leaf] constructor of
    [command_t] below.  [OP_other] stands for any further value of the
    type, one that the [switch] of [parse_command] has no [case] for. *)
Inductive operator_t : Type :=
| OP_SEQUENTIAL
| OP_PARALLEL
| OP_CONDITIONAL_ZERO
| OP_CONDITIONAL_NZERO
| OP_PIPE
| OP_other (tag : nat).

(** Modelled from the spec: [command_t], the spec's CommandNode, a
    tagged union.  A node with [op == OP_NONE] carries [scmd] (which
    [parse_simple] tests against [NULL]); any other node carries its
    two children [cmd1] and [cmd2]. *)
Inductive command_t : Type :=
| Leaf (scmd : option simple_command_t)
| Node (op : operator_t) (cmd1 cmd2 : command_t).

(** ** System calls and process histories *)

Inductive oflag : Type := O_RDONLY | O_WRONLY | O_CREAT | O_APPEND | O_TRUNC.

(** One entry per system call a process has made, with the value the
    call gave back. *)
Inductive event : Type :=
| EFork (ret : Z)
| EPipe (fds : option (Z * Z))
| EOpen (path : string) (flags : list oflag) (mode : option Z) (fd : Z)
| EDup2 (oldfd newfd ret : Z)
| EClose (fd : Z)
| EChdir (dir : string) (ret : Z)
| ESetenv (name value : string) (overwrite ret : Z)
| EExecvp (argv : list string)
| EWaitpid (pid status : Z).

(** The calls of one process, newest first.  A child starts from a copy
    of its parent's history, as it starts from a copy of its descriptor
    table, directory and environment. *)
Definition history : Type := list event.

(** What [execvp] does: it fails and returns -1, or the image is
    replaced; [fate] is then the raw wait status with which the new
    program ends, [None] if it never ends. *)
Inductive exec_result : Type :=
| ExecFailed
| ExecReplaced (fate : option Z).

(** The environment of the code: the constants of the headers that are
    not part of [cmd.c], the answers of the operating system, given the
    history of the calling process, and the word resolution of
    [utils.c]. *)
Class OS : Type := {
  (** [cmd.h]: the value [exit] and [quit] return *)
  SHELL_EXIT : Z;
  (** [parser.h]: the values of [io_flags] *)
  IO_OUT_APPEND : Z;
  IO_ERR_APPEND : Z;
  (** [fork] in the parent: [None] for -1, else the child's pid *)
  os_fork : history -> option Z;
  (** [pipe]: [None] for -1, else the read end and the write end *)
  os_pipe : history -> option (Z * Z);
  (** [open]: the descriptor, or -1 *)
  os_open : history -> string -> list oflag -> option Z -> Z;
  os_dup2 : history -> Z -> Z -> Z;
  os_chdir : history -> string -> Z;
  os_setenv : history -> string -> string -> Z -> Z;
  os_execvp : history -> list string -> exec_result;
  (** [get_word] and [get_argv] read the process environment *)
  os_get_word : history -> option word_t -> string;
  os_get_argv : history -> simple_command_t -> list string
}.

(** ** Computations of one process *)

(** A piece of code, run from a history, either returns to its caller,
    or ends the process with a raw wait status, or never returns. *)
Inductive outcome (A : Type) : Type :=
| Returned (a : A) (h : history)
| Terminated (status : Z) (h : history)
| Blocked.

Arguments Returned {A} a h.
Arguments Terminated {A} status h.
Arguments Blocked {A}.

Definition M (A : Type) : Type := history -> outcome A.

Definition ret {A : Type} (a : A) : M A := fun h => Returned a h.

Definition bind {A B : Type} (m : M A) (k : A -> M B) : M B :=
  fun h =>
    match m h with
    | Returned a h' => k a h'
    | Terminated st h' => Terminated st h'
    | Blocked => Blocked
    end.

Declare Scope shell_scope.
Delimit Scope shell_scope with shell.
Notation "x <- m ;; k" := (bind m (fun x => k))
  (at level 100, m at next level, right associativity) : shell_scope.
Notation "m ;; k" := (bind m (fun _ => k))
  (at level 100, right associativity) : shell_scope.
Open Scope shell_scope.

(** The code of a forked child never returns to the parent's code. *)
Inductive void : Type := .

(** ** [<sys/wait.h>], [<unistd.h>], [<stdlib.h>] *)

Definition STDIN_FILENO : Z := 0.
Definition STDOUT_FILENO : Z := 1.
Definition STDERR_FILENO : Z := 2.
Definition EXIT_FAILURE : Z := 1.
Definition SIGSEGV : Z := 11.

(** The raw wait status of a process that calls [exit(code)]: the low
    byte of [code], in bits 8 to 15. *)
Definition exit_status (code : Z) : Z := Z.shiftl (Z.land code 255) 8.

Definition WEXITSTATUS (status : Z) : Z := Z.shiftr (Z.land status 65280) 8.

(** Conversions between [int] and C's [bool] ([_Bool]): any value that
    is not 0 becomes [true]; [true] is 1 as an [int]. *)
Definition bool_of_int (z : Z) : bool := negb (z =? 0).
Definition int_of_bool (b : bool) : Z := if b then 1 else 0.

Section Shell.

Context {os : OS}.

Definition exit_ {A : Type} (code : Z) : M A :=
  fun h => Terminated (exit_status code) h.

(** Modelled from the spec: the macro [DIE] of [utils.h], which is not
    among the sources.  The spec calls the errors it guards fatal for
    the command in progress: the process ends with a failure status. *)
Definition DIE (assertion : bool) : M unit :=
  if assertion then exit_ EXIT_FAILURE else ret tt.

Definition sys_open (path : string) (flags : list oflag) (mode : option Z) : M Z :=
  fun h => let fd := os_open h path flags mode in
           Returned fd (EOpen path flags mode fd :: h).

Definition sys_dup2 (oldfd newfd : Z) : M Z :=
  fun h => let rc := os_dup2 h oldfd newfd in
           Returned rc (EDup2 oldfd newfd rc :: h).

Definition sys_close (fd : Z) : M unit :=
  fun h => Returned tt (EClose fd :: h).

Definition sys_chdir (dir : string) : M Z :=
  fun h => let rc := os_chdir h dir in
           Returned rc (EChdir dir rc :: h).

Definition sys_setenv (name value : string) (overwrite : Z) : M Z :=
  fun h => let rc := os_setenv h name value overwrite in
           Returned rc (ESetenv name value overwrite rc :: h).

Definition sys_pipe : M (option (Z * Z)) :=
  fun h => let fds := os_pipe h in Returned fds (EPipe fds :: h).

(** [execvp(argv[0], argv)] returns only when it fails, and then with
    -1: nothing is left to test in its result. *)
Definition sys_execvp (argv : list string) : M unit :=
  fun h =>
    match os_execvp h argv with
    | ExecFailed => Returned tt (EExecvp argv :: h)
    | ExecReplaced (Some status) => Terminated status (EExecvp argv :: h)
    | ExecReplaced None => Blocked
    end.

(** How a child ends: its raw wait status, or [None] when it never
    ends. *)
Definition fate (o : outcome void) : option Z :=
  match o with
  | Returned v _ => match v with end
  | Terminated status _ => Some status
  | Blocked => None
  end.

(** [fork()], with the code the child runs (the [pid == 0] branch, which
    always ends in [exit] or [execvp]).  In the parent the result is
    [None] for -1, else the child's pid together with the child's fate,
    which [waitpid] reports later.  The two processes are not
    interleaved: what the child does is a function of the history it
    starts from. *)
Definition fork (child : M void) : M (option (Z * option Z)) :=
  fun h =>
    match os_fork h with
    | None => Returned None (EFork (-1) :: h)
    | Some pid => Returned (Some (pid, fate (child (EFork 0 :: h)))) (EFork pid :: h)
    end.

(** [waitpid(pid, &status, 0)]: blocks until the child has ended and
    gives its raw status.  The code does not look at the value
    [waitpid] returns; the call is taken to succeed. *)
Definition sys_waitpid (pid : Z) (child : option Z) : M Z :=
  fun h =>
    match child with
    | Some status => Returned status (EWaitpid pid status :: h)
    | None => Blocked
    end.

(** Reading through a [NULL] pointer: the process is killed by
    [SIGSEGV], whose number is then its raw wait status. *)
Definition null_dereference {A : Type} : M A :=
  fun h => Terminated SIGSEGV h.

Definition get_word (w : option word_t) : M string :=
  fun h => Returned (os_get_word h w) h.

Definition get_argv (s : simple_command_t) : M (list string) :=
  fun h => Returned (os_get_argv h s) h.

(** ** Redirections

    [free] and [fflush] have no counterpart here: neither the heap nor
    the buffers of [stdio] are modelled. *)

Definition redirect_input (i : option word_t) : M unit :=
  filename <- get_word i ;;
  fd <- sys_open filename [O_RDONLY] None ;;
  DIE (fd =? -1) ;;
  rc <- sys_dup2 fd STDIN_FILENO ;;
  DIE (rc =? -1) ;;
  sys_close fd.

Definition redirect_output (o : option word_t) (flags : Z) : M unit :=
  filename <- get_word o ;;
  fd <- (if flags =? IO_OUT_APPEND
         then sys_open filename [O_WRONLY; O_CREAT; O_APPEND] (Some 420)
         else sys_open filename [O_WRONLY; O_CREAT; O_TRUNC] (Some 420)) ;;
  DIE (fd =? -1) ;;
  rc <- sys_dup2 fd STDOUT_FILENO ;;
  DIE (rc =? -1) ;;
  sys_close fd.

Definition redirect_error (e : option word_t) (flags : Z) : M unit :=
  filename <- get_word e ;;
  fd <- (if flags =? IO_ERR_APPEND
         then sys_open filename [O_WRONLY; O_CREAT; O_APPEND] (Some 420)
         else sys_open filename [O_WRONLY; O_CREAT; O_TRUNC] (Some 420)) ;;
  DIE (fd =? -1) ;;
  rc <- sys_dup2 fd STDERR_FILENO ;;
  DIE (rc =? -1) ;;
  sys_close fd.

Definition redirect_both_out_and_err (s : simple_command_t) : M unit :=
  filename_out <- get_word (out s) ;;
  fd_out <- sys_open filename_out [O_WRONLY; O_CREAT; O_APPEND] (Some 420) ;;
  DIE (fd_out =? -1) ;;
  filename_err <- get_word (err s) ;;
  fd_err <- sys_open filename_err [O_WRONLY; O_CREAT; O_TRUNC] (Some 420) ;;
  DIE (fd_err =? -1) ;;
  rc_out <- sys_dup2 fd_out STDOUT_FILENO ;;
  DIE (rc_out =? -1) ;;
  rc_err <- sys_dup2 fd_err STDERR_FILENO ;;
  DIE (rc_err =? -1) ;;
  sys_close fd_out ;;
  sys_close fd_err.

Definition perform_redirections (s : simple_command_t) : M unit :=
  (match in_ s with
   | Some _ => redirect_input (in_ s)
   | None => ret tt
   end) ;;
  match out s with
  | Some _ =>
      match err s with
      | None => redirect_output (out s) (io_flags s)
      | Some _ => redirect_both_out_and_err s
      end
  | None =>
      match err s with
      | Some _ => redirect_error (err s) (io_flags s)
      | None => ret tt
      end
  end.

(** ** Builtins and external commands *)

Definition shell_cd (dir : option word_t) : M bool :=
  dir_name <- get_word dir ;;
  return_value <- sys_chdir dir_name ;;
  ret (bool_of_int return_value).

Definition complete_cd_command (s : simple_command_t) : M bool :=
  perform_redirections s ;;
  shell_cd (params s).

Definition shell_exit : M Z := ret SHELL_EXIT.

(** The child either has its image replaced by [execvp] or calls
    [exit(0)]; lines 230 to 234 and 247 of the source are not reached. *)
Definition execute_external_command (s : simple_command_t) : M Z :=
  child <- fork (perform_redirections s ;;
                 argv <- get_argv s ;;
                 sys_execvp argv ;;
                 exit_ 0) ;;
  match child with
  | None => ret 0
  | Some (pid, ended) =>
      status <- sys_waitpid pid ended ;;
      ret (WEXITSTATUS status)
  end.

Definition is_null {A : Type} (p : option A) : bool :=
  match p with None => true | Some _ => false end.

Definition assign_environment_variable (s : simple_command_t) : M Z :=
  match next_part (verb s) with
  | None => null_dereference
  | Some np =>
      if negb (str np =? "=")%string || is_null (next_part np)
      then ret 0
      else
        let var_name := str (verb s) in
        var_value <- get_word (next_part np) ;;
        return_value <- sys_setenv var_name var_value 1 ;;
        ret return_value
  end.

Definition parse_simple (s : option simple_command_t) (level : Z)
    (father : option command_t) : M Z :=
  match s with
  | None => ret 0
  | Some s =>
      if (str (verb s) =? "exit")%string then shell_exit
      else if (str (verb s) =? "quit")%string then shell_exit
      else if (str (verb s) =? "cd")%string
      then (b <- complete_cd_command s ;; ret (int_of_bool b))
      else if negb (is_null (next_part (verb s)))
      then assign_environment_variable s
      else execute_external_command s
  end.

(** ** Operators *)

Section Operators.

(** [run_in_parallel] and [run_on_pipe] call back into [parse_command],
    which is defined after them. *)
Variable parse_command : command_t -> Z -> option command_t -> M Z.

Definition run_in_parallel (cmd1 cmd2 : command_t) (level : Z)
    (father : option command_t) : M bool :=
  first <- fork (code <- parse_command cmd1 (level + 1) father ;; exit_ code) ;;
  match first with
  | None => ret false
  | Some (first_pid, first_ended) =>
      second <- fork (code <- parse_command cmd2 (level + 1) father ;; exit_ code) ;;
      match second with
      | None => ret false
      | Some (second_pid, second_ended) =>
          first_status <- sys_waitpid first_pid first_ended ;;
          second_status <- sys_waitpid second_pid second_ended ;;
          if negb (WEXITSTATUS first_status =? 0) then ret false
          else if negb (WEXITSTATUS second_status =? 0) then ret false
          else ret true
      end
  end.

Definition run_on_pipe (cmd1 cmd2 : command_t) (level : Z)
    (father : option command_t) : M bool :=
  pipefds <- sys_pipe ;;
  match pipefds with
  | None => ret false
  | Some (pipefds_0, pipefds_1) =>
      first <- fork (rc <- sys_dup2 pipefds_1 STDOUT_FILENO ;;
                     DIE (rc =? -1) ;;
                     sys_close pipefds_1 ;;
                     sys_close pipefds_0 ;;
                     code <- parse_command cmd1 (level + 1) father ;;
                     exit_ code) ;;
      match first with
      | None => ret false
      | Some (first_pid, first_ended) =>
          second <- fork (rc <- sys_dup2 pipefds_0 STDIN_FILENO ;;
                          DIE (rc =? -1) ;;
                          sys_close pipefds_0 ;;
                          sys_close pipefds_1 ;;
                          code <- parse_command cmd2 (level + 1) father ;;
                          exit_ code) ;;
          match second with
          | None => ret false
          | Some (second_pid, second_ended) =>
              sys_close pipefds_0 ;;
              sys_close pipefds_1 ;;
              sys_waitpid first_pid first_ended ;;
              status <- sys_waitpid second_pid second_ended ;;
              ret (bool_of_int (WEXITSTATUS status))
          end
      end
  end.

End Operators.

Fixpoint parse_command (c : command_t) (level : Z) (father : option command_t)
    {struct c} : M Z :=
  match c with
  | Leaf scmd => parse_simple scmd level father
  | Node op cmd1 cmd2 =>
      match op with
      | OP_SEQUENTIAL =>
          parse_command cmd1 (level + 1) (Some c) ;;
          exit_code <- parse_command cmd2 (level + 1) (Some c) ;;
          ret exit_code
      | OP_PARALLEL =>
          b <- run_in_parallel parse_command cmd1 cmd2 (level + 1) (Some c) ;;
          ret (int_of_bool b)
      | OP_CONDITIONAL_NZERO =>
          exit_code <- parse_command cmd1 (level + 1) (Some c) ;;
          if negb (exit_code =? 0)
          then (exit_code <- parse_command cmd2 (level + 1) (Some c) ;; ret exit_code)
          else ret exit_code
      | OP_CONDITIONAL_ZERO =>
          exit_code <- parse_command cmd1 (level + 1) (Some c) ;;
          if exit_code =? 0
          then (exit_code <- parse_command cmd2 (level + 1) (Some c) ;; ret exit_code)
          else ret exit_code
      | OP_PIPE =>
          b <- run_on_pipe parse_command cmd1 cmd2 (level + 1) (Some c) ;;
          ret (int_of_bool b)
      | OP_other _ => ret SHELL_EXIT
      end
  end.

(** ** Vocabulary for the statements *)

(** How the child that [run_in_parallel] forks at history [h] for the
    subtree [c] ends: it runs [exit(parse_command(c, ...))]. *)
Definition parallel_child (c : command_t) (h : history) : option Z :=
  fate ((code <- parse_command c 0 None ;; exit_ code) (EFork 0 :: h)).

(** How the second child of [run_on_pipe], forked at history [h] for
    the right subtree [c], ends. *)
Definition pipe_reader (c : command_t) (pipefds_0 pipefds_1 : Z) (h : history)
    : option Z :=
  fate ((rc <- sys_dup2 pipefds_0 STDIN_FILENO ;;
         DIE (rc =? -1) ;;
         sys_close pipefds_0 ;;
         sys_close pipefds_1 ;;
         code <- parse_command c 0 None ;;
         exit_ code) (EFork 0 :: h)).

(** And the first child, for the left subtree. *)
Definition pipe_writer (c : command_t) (pipefds_0 pipefds_1 : Z) (h : history)
    : option Z :=
  fate ((rc <- sys_dup2 pipefds_1 STDOUT_FILENO ;;
         DIE (rc =? -1) ;;
         sys_close pipefds_1 ;;
         sys_close pipefds_0 ;;
         code <- parse_command c 0 None ;;
         exit_ code) (EFork 0 :: h)).

End Shell.

Definition append_mode : list oflag := [O_WRONLY; O_CREAT; O_APPEND].
Definition truncate_mode : list oflag := [O_WRONLY; O_CREAT; O_TRUNC].

Definition oflag_eqb (a b : oflag) : bool :=
  match a, b with
  | O_RDONLY, O_RDONLY | O_WRONLY, O_WRONLY | O_CREAT, O_CREAT
  | O_APPEND, O_APPEND | O_TRUNC, O_TRUNC => true
  | _, _ => false
  end.

(** The files opened for writing among the events [new] (newest first),
    in the order of the calls, each with the flags of its [open]. *)
Definition write_opens (new : list event) : list (string * list oflag) :=
  flat_map (fun e =>
              match e with
              | EOpen path flags _ _ =>
                  if existsb (oflag_eqb O_WRONLY) flags then [(path, flags)] else []
              | _ => []
              end)
           (rev new).

(** Where a run stopped: the history it reached, with [true] if the code
    returned and [false] if the process ended. *)
Definition final {A : Type} (o : outcome A) : option (bool * history) :=
  match o with
  | Returned _ h => Some (true, h)
  | Terminated _ h => Some (false, h)
  | Blocked => None
  end.

(** The files [perform_redirections] is to open for writing, target
    word and flags, for the histories [h1] and [h2] at which the words
    are resolved. *)
Definition expected_write_opens {os : OS} (s : simple_command_t) (h1 h2 : history)
    : list (string * list oflag) :=
  match out s, err s with
  | Some _, Some _ =>
      [(os_get_word h1 (out s), append_mode); (os_get_word h2 (err s), truncate_mode)]
  | Some _, None =>
      [(os_get_word h1 (out s),
        if io_flags s =? IO_OUT_APPEND then append_mode else truncate_mode)]
  | None, Some _ =>
      [(os_get_word h1 (err s),
        if io_flags s =? IO_ERR_APPEND then append_mode else truncate_mode)]
  | None, None => []
  end.

(** The two halves of the body of [perform_redirections]: its first
    statement, for the input target, and the rest, for the output and
    error targets. *)
Definition input_redirection {os : OS} (s : simple_command_t) : M unit :=
  match in_ s with
  | Some _ => redirect_input (in_ s)
  | None => ret tt
  end.

Definition output_redirection {os : OS} (s : simple_command_t) : M unit :=
  match out s with
  | Some _ =>
      match err s with
      | None => redirect_output (out s) (io_flags s)
      | Some _ => redirect_both_out_and_err s
      end
  | None =>
      match err s with
      | Some _ => redirect_error (err s) (io_flags s)
      | None => ret tt
      end
  end.

(** An [open] or a [dup2] that returned -1. *)
Definition failed (e : event) : bool :=
  match e with
  | EOpen _ _ _ fd => fd =? -1
  | EDup2 _ _ rc => rc =? -1
  | _ => false
  end.

Definition no_failure (new : list event) : bool :=
  forallb (fun e => negb (failed e)) new.

(** The history right after the output target was opened, at [h0], in
    append mode. *)
Definition output_opened {os : OS} (s : simple_command_t) (h0 : history) : history :=
  EOpen (os_get_word h0 (out s)) append_mode (Some 420)
        (os_open h0 (os_get_word h0 (out s)) append_mode (Some 420))
  :: h0.

(** The [open] calls for writing that are made once the input target
    is dealt with, at history [h0]: target name and flags.  With both
    targets, the error target is opened only if the [open] of the output
    target has not failed. *)
Definition requested_write_opens {os : OS} (s : simple_command_t) (h0 : history)
    : list (string * list oflag) :=
  match out s, err s with
  | Some _, Some _ =>
      (os_get_word h0 (out s), append_mode)
      :: (if os_open h0 (os_get_word h0 (out s)) append_mode (Some 420) =? -1
          then []
          else [(os_get_word (output_opened s h0) (err s), truncate_mode)])
  | Some _, None =>
      [(os_get_word h0 (out s),
        if io_flags s =? IO_OUT_APPEND then append_mode else truncate_mode)]
  | None, Some _ =>
      [(os_get_word h0 (err s),
        if io_flags s =? IO_ERR_APPEND then append_mode else truncate_mode)]
  | None, None => []
  end.

(** ** Vocabulary for the properties of histories *)

(** What a list of events (newest first) holds of one kind, in the
    order of the calls. *)
Definition calls {A : Type} (pick : event -> list A) (new : list event) : list A :=
  flat_map pick (rev new).

(** The results of the [fork] calls, -1 for a failed one. *)
Definition forked : list event -> list Z :=
  calls (fun e => match e with EFork r => [r] | _ => [] end).

(** The pids that [waitpid] has reaped. *)
Definition reaped : list event -> list Z :=
  calls (fun e => match e with EWaitpid pid _ => [pid] | _ => [] end).

(** [redirection_calls s h calls_in calls_out]: the calls that
    [perform_redirections] has made when it returns, started at history
    [h], in the order they were made; [calls_in] for the input target
    and [calls_out] for the output and error targets.  For each target
    present: an [open] of the resolved target that gave a descriptor
    [fd], not -1; then a [dup2] of [fd] onto the standard descriptor of
    the target that did not give -1; then a [close] of [fd].  With both
    an output and an error target the two [open] calls come first, then
    the two [dup2] calls, then the two [close] calls. *)
Definition redirection_calls {os : OS} (s : simple_command_t) (h : history)
    (calls_in calls_out : list event) : Prop :=
  let h0 := (rev calls_in ++ h)%list in
  match in_ s with
  | None => calls_in = []
  | Some _ =>
      exists fd rc,
        fd <> -1 /\ rc <> -1
        /\ calls_in = [EOpen (os_get_word h (in_ s)) [O_RDONLY] None fd;
                       EDup2 fd STDIN_FILENO rc;
                       EClose fd]
  end
  /\ match out s, err s with
     | None, None => calls_out = []
     | Some _, None =>
         exists fd rc,
           fd <> -1 /\ rc <> -1
           /\ calls_out
              = [EOpen (os_get_word h0 (out s))
                   (if io_flags s =? IO_OUT_APPEND then append_mode else truncate_mode)
                   (Some 420) fd;
                 EDup2 fd STDOUT_FILENO rc;
                 EClose fd]
     | None, Some _ =>
         exists fd rc,
           fd <> -1 /\ rc <> -1
           /\ calls_out
              = [EOpen (os_get_word h0 (err s))
                   (if io_flags s =? IO_ERR_APPEND then append_mode else truncate_mode)
                   (Some 420) fd;
                 EDup2 fd STDERR_FILENO rc;
                 EClose fd]
     | Some _, Some _ =>
         exists fd_out fd_err rc_out rc_err,
           fd_out <> -1 /\ fd_err <> -1 /\ rc_out <> -1 /\ rc_err <> -1
           /\ calls_out
              = [EOpen (os_get_word h0 (out s)) append_mode (Some 420) fd_out;
                 EOpen (os_get_word
                          (EOpen (os_get_word h0 (out s)) append_mode (Some 420) fd_out
                           :: h0)
                          (err s))
                   truncate_mode (Some 420) fd_err;
                 EDup2 fd_out STDOUT_FILENO rc_out;
                 EDup2 fd_err STDERR_FILENO rc_err;
                 EClose fd_out;
                 EClose fd_err]
     end.

(** The calls on descriptors that a redirection makes. *)
Definition descriptor_event (e : event) : bool :=
  match e with
  | EOpen _ _ _ _ | EDup2 _ _ _ | EClose _ => true
  | _ => false
  end.

(** The calls that create, connect and reap processes. *)
Definition process_event (e : event) : bool :=
  match e with
  | EFork _ | EPipe _ | EClose _ | EWaitpid _ _ => true
  | _ => false
  end.

(** The calls that leave the descriptors and the image of the calling
    process as they are: all but [open], [dup2] and [execvp]. *)
Definition keeps_descriptors (e : event) : bool :=
  match e with
  | EOpen _ _ _ _ | EDup2 _ _ _ | EExecvp _ => false
  | _ => true
  end.

(** The leaves that [parse_simple] does not hand to
    [execute_external_command]: the verb is [exit], [quit] or [cd], or
    it has a further part. *)
Definition builtin_or_assignment (s : simple_command_t) : bool :=
  (str (verb s) =? "exit")%string
  || (str (verb s) =? "quit")%string
  || (str (verb s) =? "cd")%string
  || negb (is_null (next_part (verb s))).

(** A [cd] that carries a redirection. *)
Definition redirected_cd (s : simple_command_t) : bool :=
  (str (verb s) =? "cd")%string
  && negb (is_null (in_ s) && is_null (out s) && is_null (err s)).

(** [shell_leaves good c]: the leaves of [c] that the calling process
    evaluates itself, those not below a [PARALLEL] or [PIPE] node, all
    satisfy [good]. *)
Fixpoint shell_leaves (good : simple_command_t -> bool) (c : command_t) : bool :=
  match c with
  | Leaf None => true
  | Leaf (Some s) => good s
  | Node op cmd1 cmd2 =>
      match op with
      | OP_SEQUENTIAL | OP_CONDITIONAL_ZERO | OP_CONDITIONAL_NZERO =>
          shell_leaves good cmd1 && shell_leaves good cmd2
      | _ => true
      end
  end.

(** [grows P m]: whenever [m] returns, it has added events to the
    history, and these satisfy [P]. *)
Definition grows {A : Type} (P : list event -> Prop) (m : M A) : Prop :=
  forall h a h', m h = Returned a h' -> exists new, h' = (new ++ h)%list /\ P new.

(** [survives m]: [m] never ends the process that runs it. *)
Definition survives {A : Type} (m : M A) : Prop :=
  forall h status h', m h <> Terminated status h'.

(** ** A small machine to run the evaluator on

    [machine fork_limit pipes] answers the system calls as a plain Unix
    system would for a handful of programs.  [fork] succeeds while the
    process has created fewer than [fork_limit] children; [pipe]
    succeeds when [pipes] is set. *)

Module Machine.

Fixpoint flatten (w : word_t) : string :=
  match w with
  | Word s None => s
  | Word s (Some n) => (s ++ flatten n)%string
  end.

Definition children (h : history) : nat :=
  List.length (filter (fun e => match e with EFork r => 0 <? r | _ => false end) h).

(** The number of descriptors above the three standard ones. *)
Fixpoint descriptors (h : history) : Z :=
  match h with
  | [] => 0
  | EOpen _ _ _ fd :: h' => (if fd =? -1 then 0 else 1) + descriptors h'
  | EPipe (Some _) :: h' => 2 + descriptors h'
  | EClose fd :: h' => (if 3 <=? fd then -1 else 0) + descriptors h'
  | _ :: h' => descriptors h'
  end.

(** [setenv] refuses a name that is empty or contains ['=']. *)
Definition valid_name (name : string) : bool :=
  match name with
  | EmptyString => false
  | _ => negb (existsb (Ascii.eqb "="%char) (list_ascii_of_string name))
  end.

Definition run (argv : list string) : exec_result :=
  match argv with
  | ["true"%string] => ExecReplaced (Some 0)
  | ["false"%string] => ExecReplaced (Some 256)
  | ["ls"%string; "/nonexistent"%string] => ExecReplaced (Some 512)
  | ["yes"%string] => ExecReplaced None
  | _ => ExecFailed
  end.

Definition machine (fork_limit : nat) (pipes : bool) : OS := {|
  SHELL_EXIT := -100;
  IO_OUT_APPEND := 1;
  IO_ERR_APPEND := 2;
  os_fork h :=
    if (children h <? fork_limit)%nat then Some (100 + Z.of_nat (List.length h)) else None;
  os_pipe h :=
    if pipes then Some (3 + descriptors h, 4 + descriptors h) else None;
  os_open h path flags mode :=
    if (path =? "/nonexistent")%string then -1 else 3 + descriptors h;
  os_dup2 h oldfd newfd := newfd;
  os_chdir h dir := if (dir =? "/nonexistent")%string then -1 else 0;
  os_setenv h name value overwrite := if valid_name name then 0 else -1;
  os_execvp h argv := run argv;
  os_get_word h w := match w with Some w => flatten w | None => EmptyString end;
  os_get_argv h s :=
    flatten (verb s) :: match params s with Some p => [flatten p] | None => [] end
|}.

(** Forty processes, pipes available. *)
Definition linux : OS := machine 40 true.

(** A simple command without redirections, and the leaf that holds it. *)
Definition simple (v : word_t) (p : option word_t) : simple_command_t :=
  mk_simple_command v p None None None 0.

Definition command (v : word_t) (p : option word_t) : command_t :=
  Leaf (Some (simple v p)).

Definition word (s : string) : word_t := Word s None.

Definition cmd_true : command_t := command (word "true") None.
Definition cmd_false : command_t := command (word "false") None.
Definition cmd_ls_nonexistent : command_t :=
  command (word "ls") (Some (word "/nonexistent")).
Definition cmd_exit : command_t := command (word "exit") None.
Definition cmd_missing : command_t := command (word "no-such-program") None.

End Machine.

(** [Machine.linux] with one more program, [crash], which is killed by
    [SIGSEGV]. *)
Definition linux_with_crash : OS := {|
  SHELL_EXIT := @SHELL_EXIT Machine.linux;
  IO_OUT_APPEND := @IO_OUT_APPEND Machine.linux;
  IO_ERR_APPEND := @IO_ERR_APPEND Machine.linux;
  os_fork := @os_fork Machine.linux;
  os_pipe := @os_pipe Machine.linux;
  os_open := @os_open Machine.linux;
  os_dup2 := @os_dup2 Machine.linux;
  os_chdir := @os_chdir Machine.linux;
  os_setenv := @os_setenv Machine.linux;
  os_execvp h argv :=
    match argv with
    | ["crash"%string] => ExecReplaced (Some SIGSEGV)
    | _ => Machine.run argv
    end;
  os_get_word := @os_get_word Machine.linux;
  os_get_argv := @os_get_argv Machine.linux
|}.

(** Writes a history [e1 :: ... :: en :: h] as [[e1; ...; en] ++ h]. *)
Ltac prefix_of l h :=
  match l with
  | h => constr:(@nil event)
  | ?e :: ?l' => let p := prefix_of l' h in constr:(e :: p)
  end.

(** ** Properties of the evaluator *)

Section Evaluator.

Context {os : OS}.

Lemma bind_returned {A B : Type} (m : M A) (k : A -> M B) h a h' :
  m h = Returned a h' -> bind m k h = k a h'.
Proof. intros E. unfold bind. now rewrite E. Qed.

Lemma bind_ret {A : Type} (m : M A) h :
  bind m (fun a => ret a) h = m h.
Proof. unfold bind, ret. now destruct (m h). Qed.

Lemma fork_failed (child : M void) h :
  os_fork h = None -> fork child h = Returned None (EFork (-1) :: h).
Proof. intros E. unfold fork. now rewrite E. Qed.

Lemma fork_succeeded (child : M void) h pid :
  os_fork h = Some pid ->
  fork child h = Returned (Some (pid, fate (child (EFork 0 :: h)))) (EFork pid :: h).
Proof. intros E. unfold fork. now rewrite E. Qed.

(** [level] and [father] are passed along and never read. *)
Lemma parse_command_context (c : command_t) :
  forall level father level' father' h,
    parse_command c level father h = parse_command c level' father' h.
Proof.
  induction c as [scmd | op cmd1 IH1 cmd2 IH2]; intros level father level' father' h.
  - reflexivity.
  - destruct op; cbn [parse_command]; try reflexivity.
    + unfold bind.
      rewrite (IH1 _ _ (level' + 1) (Some (Node OP_SEQUENTIAL cmd1 cmd2)) h).
      destruct (parse_command cmd1 _ _ h); try reflexivity.
      now rewrite (IH2 _ _ (level' + 1) (Some (Node OP_SEQUENTIAL cmd1 cmd2)) h0).
    + unfold run_in_parallel, bind, fork.
      destruct (os_fork h) as [pid1 |]; [| reflexivity].
      rewrite (IH1 _ _ (level' + 1 + 1) (Some (Node OP_PARALLEL cmd1 cmd2)) (EFork 0 :: h)).
      destruct (os_fork (EFork pid1 :: h)) as [pid2 |]; [| reflexivity].
      now rewrite (IH2 _ _ (level' + 1 + 1) (Some (Node OP_PARALLEL cmd1 cmd2))
                     (EFork 0 :: EFork pid1 :: h)).
    + unfold bind.
      rewrite (IH1 _ _ (level' + 1) (Some (Node OP_CONDITIONAL_ZERO cmd1 cmd2)) h).
      destruct (parse_command cmd1 _ _ h); try reflexivity.
      destruct (a =? 0); [| reflexivity].
      now rewrite (IH2 _ _ (level' + 1) (Some (Node OP_CONDITIONAL_ZERO cmd1 cmd2)) h0).
    + unfold bind.
      rewrite (IH1 _ _ (level' + 1) (Some (Node OP_CONDITIONAL_NZERO cmd1 cmd2)) h).
      destruct (parse_command cmd1 _ _ h); try reflexivity.
      destruct (negb (a =? 0)); [| reflexivity].
      now rewrite (IH2 _ _ (level' + 1) (Some (Node OP_CONDITIONAL_NZERO cmd1 cmd2)) h0).
    + unfold run_on_pipe, bind, fork, sys_pipe.
      destruct (os_pipe h) as [[fd0 fd1] |]; [| reflexivity].
      destruct (os_fork _) as [pid1 |]; [| reflexivity].
      unfold sys_dup2, DIE, sys_close, ret.
      destruct (os_dup2 _ fd1 STDOUT_FILENO =? -1).
      * destruct (os_fork _) as [pid2 |]; [| reflexivity].
        destruct (os_dup2 _ fd0 STDIN_FILENO =? -1); [reflexivity |].
        now rewrite (IH2 _ _ (level' + 1 + 1) (Some (Node OP_PIPE cmd1 cmd2))).
      * rewrite (IH1 _ _ (level' + 1 + 1) (Some (Node OP_PIPE cmd1 cmd2))).
        destruct (os_fork _) as [pid2 |]; [| reflexivity].
        destruct (os_dup2 _ fd0 STDIN_FILENO =? -1); [reflexivity |].
        now rewrite (IH2 _ _ (level' + 1 + 1) (Some (Node OP_PIPE cmd1 cmd2))).
Qed.

(** The left subtree has returned: step over its [bind]. *)
Ltac left_returned EA :=
  match type of EA with
  | _ ?h = Returned ?a ?h1 =>
      rewrite (bind_returned _ _ h a h1)
        by (rewrite <- EA; apply parse_command_context)
  end.

Lemma parse_conditional_nzero (A B : command_t) level father la fa lb fb h a h1 :
  parse_command A la fa h = Returned a h1 ->
  parse_command (Node OP_CONDITIONAL_NZERO A B) level father h
  = if a =? 0 then Returned a h1 else parse_command B lb fb h1.
Proof.
  intros EA. cbn [parse_command].
  left_returned EA.
  destruct (a =? 0); cbn [negb]; [reflexivity |].
  rewrite bind_ret. apply parse_command_context.
Qed.

Lemma parse_conditional_zero (A B : command_t) level father la fa lb fb h a h1 :
  parse_command A la fa h = Returned a h1 ->
  parse_command (Node OP_CONDITIONAL_ZERO A B) level father h
  = if a =? 0 then parse_command B lb fb h1 else Returned a h1.
Proof.
  intros EA. cbn [parse_command].
  left_returned EA.
  destruct (a =? 0); [| reflexivity].
  rewrite bind_ret. apply parse_command_context.
Qed.

(** C6: evaluating [SEQUENTIAL(A, B)] evaluates [A]; whatever status
    [a] that gives, [B] is evaluated next, from the history [A] left,
    and the node's outcome, and so its status, is that of [B]. *)
Theorem sequential_returns_second (A B : command_t) level father la fa lb fb h a h1 :
  parse_command A la fa h = Returned a h1 ->
  parse_command (Node OP_SEQUENTIAL A B) level father h = parse_command B lb fb h1.
Proof.
  intros EA. cbn [parse_command].
  left_returned EA.
  rewrite bind_ret.
  apply parse_command_context.
Qed.

(** C7: evaluating [IF_NONZERO(A, B)] evaluates [A]; when its status
    [a] is not 0 the node's outcome is that of [B], evaluated next, and
    otherwise the node returns [a] and nothing of [B] is run (the
    history is the one [A] left).  [IF_ZERO(A, B)] is the same with the
    test reversed. *)
Theorem conditional_evaluation (A B : command_t) level father la fa lb fb h a h1 :
  parse_command A la fa h = Returned a h1 ->
  (a <> 0 ->
   parse_command (Node OP_CONDITIONAL_NZERO A B) level father h = parse_command B lb fb h1)
  /\ (a = 0 ->
      parse_command (Node OP_CONDITIONAL_NZERO A B) level father h = Returned a h1)
  /\ (a = 0 ->
      parse_command (Node OP_CONDITIONAL_ZERO A B) level father h = parse_command B lb fb h1)
  /\ (a <> 0 ->
      parse_command (Node OP_CONDITIONAL_ZERO A B) level father h = Returned a h1).
Proof.
  intros EA.
  rewrite (parse_conditional_nzero A B level father la fa lb fb h a h1 EA).
  rewrite (parse_conditional_zero A B level father la fa lb fb h a h1 EA).
  repeat split; intros Ha.
  - apply Z.eqb_neq in Ha. now rewrite Ha.
  - now subst a.
  - now subst a.
  - apply Z.eqb_neq in Ha. now rewrite Ha.
Qed.

(** C5 (as the code has it): when the left subtree yields [SHELL_EXIT],
    a value that is not 0, an [IF_ZERO] node returns it without
    evaluating the right subtree; under [SEQUENTIAL] and [IF_NONZERO]
    the right subtree is evaluated all the same and the node's outcome
    is the right subtree's. *)
Theorem sentinel_in_left_subtree (A B : command_t) level father la fa lb fb h h1 :
  SHELL_EXIT <> 0 ->
  parse_command A la fa h = Returned SHELL_EXIT h1 ->
  parse_command (Node OP_CONDITIONAL_ZERO A B) level father h = Returned SHELL_EXIT h1
  /\ parse_command (Node OP_SEQUENTIAL A B) level father h = parse_command B lb fb h1
  /\ parse_command (Node OP_CONDITIONAL_NZERO A B) level father h
     = parse_command B lb fb h1.
Proof.
  intros NZ EA. apply Z.eqb_neq in NZ.
  rewrite (parse_conditional_nzero A B level father la fa lb fb h _ h1 EA).
  rewrite (parse_conditional_zero A B level father la fa lb fb h _ h1 EA).
  rewrite NZ. repeat split.
  cbn [parse_command].
  left_returned EA.
  rewrite bind_ret.
  apply parse_command_context.
Qed.

(** C10: a node whose operator is none of the five that the [switch]
    names makes the evaluator return [SHELL_EXIT] at once: no system
    call is made and no child subtree is evaluated. *)
Theorem unknown_operator_returns_sentinel (op : operator_t) (A B : command_t)
    level father h :
  op <> OP_SEQUENTIAL -> op <> OP_PARALLEL -> op <> OP_CONDITIONAL_NZERO ->
  op <> OP_CONDITIONAL_ZERO -> op <> OP_PIPE ->
  parse_command (Node op A B) level father h = Returned SHELL_EXIT h.
Proof.
  intros H1 H2 H3 H4 H5. destruct op; try congruence. reflexivity.
Qed.

Lemma parallel_child_context (c : command_t) level father h :
  fate ((code <- parse_command c level father ;; exit_ code) (EFork 0 :: h))
  = parallel_child c h.
Proof.
  unfold parallel_child, bind.
  now rewrite (parse_command_context c level father 0 None).
Qed.

(** What [run_in_parallel] returns once both children have ended. *)
Lemma run_in_parallel_returns (A B : command_t) level father h pid1 pid2 st1 st2 :
  os_fork h = Some pid1 ->
  os_fork (EFork pid1 :: h) = Some pid2 ->
  parallel_child A h = Some st1 ->
  parallel_child B (EFork pid1 :: h) = Some st2 ->
  run_in_parallel parse_command A B level father h
  = Returned ((WEXITSTATUS st1 =? 0) && (WEXITSTATUS st2 =? 0))
             (EWaitpid pid2 st2 :: EWaitpid pid1 st1 :: EFork pid2 :: EFork pid1 :: h).
Proof.
  intros F1 F2 C1 C2. unfold run_in_parallel.
  rewrite (bind_returned _ _ _ _ _ (fork_succeeded _ h pid1 F1)).
  rewrite (bind_returned _ _ _ _ _ (fork_succeeded _ _ pid2 F2)).
  rewrite !parallel_child_context, C1, C2.
  unfold bind, sys_waitpid, ret.
  now destruct (WEXITSTATUS st1 =? 0), (WEXITSTATUS st2 =? 0).
Qed.

(** C1 (what the code does): when both children of a [PARALLEL] node
    have ended, the evaluator returns 1 if both exit statuses are 0 and
    0 if one of them is not: the [bool] of [run_in_parallel], [true]
    for success, is handed on as the exit status. *)
Theorem parallel_status (A B : command_t) level father h pid1 pid2 st1 st2 :
  os_fork h = Some pid1 ->
  os_fork (EFork pid1 :: h) = Some pid2 ->
  parallel_child A h = Some st1 ->
  parallel_child B (EFork pid1 :: h) = Some st2 ->
  parse_command (Node OP_PARALLEL A B) level father h
  = Returned (if (WEXITSTATUS st1 =? 0) && (WEXITSTATUS st2 =? 0) then 1 else 0)
             (EWaitpid pid2 st2 :: EWaitpid pid1 st1 :: EFork pid2 :: EFork pid1 :: h).
Proof.
  intros F1 F2 C1 C2. cbn [parse_command].
  now rewrite (bind_returned _ _ _ _ _
                 (run_in_parallel_returns A B _ _ h pid1 pid2 st1 st2 F1 F2 C1 C2)).
Qed.

Lemma pipe_writer_context (c : command_t) fd0 fd1 level father h :
  fate ((rc <- sys_dup2 fd1 STDOUT_FILENO ;;
         DIE (rc =? -1) ;;
         sys_close fd1 ;;
         sys_close fd0 ;;
         code <- parse_command c level father ;;
         exit_ code) (EFork 0 :: h))
  = pipe_writer c fd0 fd1 h.
Proof.
  unfold pipe_writer, bind, sys_dup2, DIE, sys_close, ret.
  destruct (_ =? -1); [reflexivity |].
  now rewrite (parse_command_context c level father 0 None).
Qed.

Lemma pipe_reader_context (c : command_t) fd0 fd1 level father h :
  fate ((rc <- sys_dup2 fd0 STDIN_FILENO ;;
         DIE (rc =? -1) ;;
         sys_close fd0 ;;
         sys_close fd1 ;;
         code <- parse_command c level father ;;
         exit_ code) (EFork 0 :: h))
  = pipe_reader c fd0 fd1 h.
Proof.
  unfold pipe_reader, bind, sys_dup2, DIE, sys_close, ret.
  destruct (_ =? -1); [reflexivity |].
  now rewrite (parse_command_context c level father 0 None).
Qed.

Lemma pipe_created h fds :
  os_pipe h = fds -> sys_pipe h = Returned fds (EPipe fds :: h).
Proof. intros E. unfold sys_pipe. now rewrite E. Qed.

(** What [run_on_pipe] returns once both children have ended: the exit
    status of the second one, converted to [bool]. *)
Lemma run_on_pipe_returns (A B : command_t) level father h fd0 fd1 pid1 pid2 st1 st2 :
  let h0 := EPipe (Some (fd0, fd1)) :: h in
  os_pipe h = Some (fd0, fd1) ->
  os_fork h0 = Some pid1 ->
  os_fork (EFork pid1 :: h0) = Some pid2 ->
  pipe_writer A fd0 fd1 h0 = Some st1 ->
  pipe_reader B fd0 fd1 (EFork pid1 :: h0) = Some st2 ->
  run_on_pipe parse_command A B level father h
  = Returned (bool_of_int (WEXITSTATUS st2))
             (EWaitpid pid2 st2 :: EWaitpid pid1 st1 :: EClose fd1 :: EClose fd0
              :: EFork pid2 :: EFork pid1 :: h0).
Proof.
  intros h0 P F1 F2 C1 C2. unfold run_on_pipe.
  rewrite (bind_returned _ _ _ _ _ (pipe_created h _ P)).
  rewrite (bind_returned _ _ _ _ _ (fork_succeeded _ h0 pid1 F1)).
  rewrite (bind_returned _ _ _ _ _ (fork_succeeded _ _ pid2 F2)).
  rewrite pipe_writer_context, pipe_reader_context, C1, C2.
  reflexivity.
Qed.

(** C2 (what the code does): when both children of a [PIPE] node have
    ended, the evaluator returns 0 if the exit status of the right-hand
    child is 0 and 1 for every other exit status: [run_on_pipe] returns
    [WEXITSTATUS(status)] through its result type [bool]. *)
Theorem pipe_status (A B : command_t) level father h fd0 fd1 pid1 pid2 st1 st2 :
  os_pipe h = Some (fd0, fd1) ->
  os_fork (EPipe (Some (fd0, fd1)) :: h) = Some pid1 ->
  os_fork (EFork pid1 :: EPipe (Some (fd0, fd1)) :: h) = Some pid2 ->
  pipe_writer A fd0 fd1 (EPipe (Some (fd0, fd1)) :: h) = Some st1 ->
  pipe_reader B fd0 fd1 (EFork pid1 :: EPipe (Some (fd0, fd1)) :: h) = Some st2 ->
  parse_command (Node OP_PIPE A B) level father h
  = Returned (if WEXITSTATUS st2 =? 0 then 0 else 1)
             (EWaitpid pid2 st2 :: EWaitpid pid1 st1 :: EClose fd1 :: EClose fd0
              :: EFork pid2 :: EFork pid1 :: EPipe (Some (fd0, fd1)) :: h).
Proof.
  intros P F1 F2 C1 C2. cbn [parse_command].
  rewrite (bind_returned _ _ _ _ _
             (run_on_pipe_returns A B _ _ h fd0 fd1 pid1 pid2 st1 st2 P F1 F2 C1 C2)).
  unfold ret, bool_of_int. now destruct (WEXITSTATUS st2 =? 0).
Qed.

(** C3 (what the code does): when [execvp] fails in the child of an
    external command, the child calls [exit(0)], and the parent returns
    0 for the leaf. *)
Theorem exec_failure_status (s : simple_command_t) h pid hc :
  os_fork h = Some pid ->
  perform_redirections s (EFork 0 :: h) = Returned tt hc ->
  os_execvp hc (os_get_argv hc s) = ExecFailed ->
  execute_external_command s h = Returned 0 (EWaitpid pid (exit_status 0) :: EFork pid :: h).
Proof.
  intros F R X. unfold execute_external_command.
  rewrite (bind_returned _ _ _ _ _ (fork_succeeded _ h pid F)).
  rewrite (bind_returned _ _ _ _ _ R).
  unfold bind at 2 3. unfold get_argv, sys_execvp. rewrite X.
  reflexivity.
Qed.

(** C4 (what the code does): when [fork] or [pipe] fails, the evaluator
    returns 0 for the command: for an external command, for a
    [PARALLEL] node at either of its two [fork] calls, and for a [PIPE]
    node at its [pipe] call and at either of its two [fork] calls. *)
Theorem creation_failure_status (s : simple_command_t) (A B : command_t)
    level father h :
  (os_fork h = None ->
   execute_external_command s h = Returned 0 (EFork (-1) :: h))
  /\ (os_fork h = None ->
      parse_command (Node OP_PARALLEL A B) level father h
      = Returned 0 (EFork (-1) :: h))
  /\ (forall pid1,
        os_fork h = Some pid1 -> os_fork (EFork pid1 :: h) = None ->
        parse_command (Node OP_PARALLEL A B) level father h
        = Returned 0 (EFork (-1) :: EFork pid1 :: h))
  /\ (os_pipe h = None ->
      parse_command (Node OP_PIPE A B) level father h = Returned 0 (EPipe None :: h))
  /\ (forall fds,
        os_pipe h = Some fds -> os_fork (EPipe (Some fds) :: h) = None ->
        parse_command (Node OP_PIPE A B) level father h
        = Returned 0 (EFork (-1) :: EPipe (Some fds) :: h))
  /\ (forall fds pid1,
        os_pipe h = Some fds -> os_fork (EPipe (Some fds) :: h) = Some pid1 ->
        os_fork (EFork pid1 :: EPipe (Some fds) :: h) = None ->
        parse_command (Node OP_PIPE A B) level father h
        = Returned 0 (EFork (-1) :: EFork pid1 :: EPipe (Some fds) :: h)).
Proof.
  repeat split.
  - intros F. unfold execute_external_command.
    now rewrite (bind_returned _ _ _ _ _ (fork_failed _ h F)).
  - intros F. cbn [parse_command]. unfold run_in_parallel, bind at 1 2.
    now rewrite (fork_failed _ h F).
  - intros pid1 F1 F2. cbn [parse_command]. unfold run_in_parallel, bind at 1 2.
    rewrite (fork_succeeded _ h pid1 F1). unfold bind.
    now rewrite (fork_failed _ _ F2).
  - intros P. cbn [parse_command]. unfold run_on_pipe, bind at 1 2.
    now rewrite (pipe_created h _ P).
  - intros [fd0 fd1] P F. cbn [parse_command]. unfold run_on_pipe, bind at 1 2.
    rewrite (pipe_created h _ P). unfold bind at 1.
    now rewrite (fork_failed _ _ F).
  - intros [fd0 fd1] pid1 P F1 F2. cbn [parse_command]. unfold run_on_pipe, bind at 1 2.
    rewrite (pipe_created h _ P). unfold bind at 1.
    rewrite (fork_succeeded _ _ pid1 F1). unfold bind at 1.
    now rewrite (fork_failed _ _ F2).
Qed.

Lemma parse_simple_assignment (s : simple_command_t) level father h np :
  str (verb s) <> "exit"%string ->
  str (verb s) <> "quit"%string ->
  str (verb s) <> "cd"%string ->
  next_part (verb s) = Some np ->
  parse_simple (Some s) level father h = assign_environment_variable s h.
Proof.
  intros E Q C N. unfold parse_simple.
  apply String.eqb_neq in E, Q, C. now rewrite E, Q, C, N.
Qed.

(** C9 (what the code does): for a leaf taken as an assignment (its
    verb is not a builtin and has a further part [np]), a malformed
    one ([np] is not ["="], or nothing follows it) makes the dispatcher
    return 0, with no system call; a well-formed one returns what
    [setenv] returned. *)
Theorem assignment_status (s : simple_command_t) level father h np :
  str (verb s) <> "exit"%string ->
  str (verb s) <> "quit"%string ->
  str (verb s) <> "cd"%string ->
  next_part (verb s) = Some np ->
  (str np <> "="%string \/ next_part np = None ->
   parse_simple (Some s) level father h = Returned 0 h)
  /\ (forall v,
        str np = "="%string -> next_part np = Some v ->
        let value := os_get_word h (Some v) in
        let rc := os_setenv h (str (verb s)) value 1 in
        parse_simple (Some s) level father h
        = Returned rc (ESetenv (str (verb s)) value 1 rc :: h)).
Proof.
  intros E Q C N.
  rewrite (parse_simple_assignment s level father h np E Q C N).
  unfold assign_environment_variable. rewrite N. split.
  - intros [Hne | Hnone].
    + apply String.eqb_neq in Hne. now rewrite Hne.
    + rewrite Hnone. cbn [is_null]. now rewrite orb_true_r.
  - intros v Heq Hv. rewrite Heq, Hv. reflexivity.
Qed.

(** *** Redirections *)

Lemma write_opens_app (new1 new2 : list event) :
  write_opens (new2 ++ new1) = (write_opens new1 ++ write_opens new2)%list.
Proof. unfold write_opens. now rewrite rev_app_distr, flat_map_app. Qed.

(** Unfolds one redirection, walks through its [DIE] tests, and shows
    the events of each of its runs. *)
Ltac run_redirection h0 :=
  unfold redirect_input, redirect_output, redirect_error, redirect_both_out_and_err,
    requested_write_opens, expected_write_opens, output_opened,
    append_mode, truncate_mode,
    bind, get_word, sys_open, DIE, sys_dup2, sys_close, ret, exit_;
  try match goal with H : out _ = _ |- _ => rewrite !H end;
  try match goal with H : err _ = _ |- _ => rewrite !H end;
  repeat match goal with
         | |- context [if ?a =? ?b then _ else _] =>
             destruct (a =? b) eqn:?; cbn beta iota
         end;
  cbn [final];
  match goal with
  | |- exists ok new, Some (?b, ?l) = Some (ok, (new ++ h0)%list) /\ _ =>
      let p := prefix_of l h0 in exists b, p; split; [reflexivity |]
  end;
  cbn;
  repeat match goal with
         | H : (_ =? -1) = _ |- _ => rewrite H
         end;
  repeat split; try reflexivity; try discriminate.

(** The input target: open for reading only, never for writing. *)
Lemma input_redirection_runs (s : simple_command_t) h :
  exists ok new,
    final (input_redirection s h) = Some (ok, (new ++ h)%list)
    /\ ok = no_failure new
    /\ write_opens new = [].
Proof.
  unfold input_redirection.
  destruct (in_ s) as [i |]; run_redirection h.
Qed.

(** The output and error targets, in every run, failed or not. *)
Lemma output_redirection_runs (s : simple_command_t) h0 :
  exists ok new,
    final (output_redirection s h0) = Some (ok, (new ++ h0)%list)
    /\ ok = no_failure new
    /\ write_opens new = requested_write_opens s h0
    /\ (ok = true ->
        write_opens new = expected_write_opens s h0 (output_opened s h0)).
Proof.
  unfold output_redirection, requested_write_opens, expected_write_opens,
    output_opened.
  destruct (out s) as [o |] eqn:O, (err s) as [e |] eqn:R; run_redirection h0.
Qed.

(** C8: the files that applying the redirections of [s] opens for
    writing, in every run.  Once the input target is dealt with, at
    history [h0] ([h0] is [h] when there is none):
    with both an output and an error target, the output target is
    opened with [O_APPEND] and, unless that [open] failed, the error
    target with [O_TRUNC], whatever [io_flags] holds; with the output
    target alone, that target is opened, with [O_APPEND] when
    [io_flags] is [IO_OUT_APPEND] and with [O_TRUNC] otherwise; with
    the error target alone, that target, with [O_APPEND] when
    [io_flags] is [IO_ERR_APPEND] and with [O_TRUNC] otherwise.  These
    calls are made whether or not they succeed, and
    [perform_redirections] returns ([ok = true]) exactly when none of
    its [open] and [dup2] calls returned -1; all the targets are opened
    then.  When the input target ends the process, so does
    [perform_redirections], there; the input target itself is never
    opened for writing. *)
Theorem redirection_modes (s : simple_command_t) h :
  (forall h0,
      input_redirection s h = Returned tt h0 ->
      exists ok new,
        final (perform_redirections s h) = Some (ok, (new ++ h0)%list)
        /\ ok = no_failure new
        /\ write_opens new = requested_write_opens s h0
        /\ (ok = true ->
            write_opens new = expected_write_opens s h0 (output_opened s h0)))
  /\ (forall status h1,
         input_redirection s h = Terminated status h1 ->
         perform_redirections s h = Terminated status h1)
  /\ (exists ok new,
         final (input_redirection s h) = Some (ok, (new ++ h)%list)
         /\ ok = no_failure new
         /\ write_opens new = []).
Proof.
  assert (perform_redirections s h
          = bind (input_redirection s) (fun _ => output_redirection s) h) as Stages
    by reflexivity.
  split; [| split].
  - intros h0 In. rewrite Stages, (bind_returned _ _ _ _ _ In).
    apply output_redirection_runs.
  - intros status h1 In. rewrite Stages. unfold bind. now rewrite In.
  - apply input_redirection_runs.
Qed.

End Evaluator.

(** ** The theorems at work on the machine *)

Import Machine.

Lemma sequential_returns_second_witness :
  @parse_command linux cmd_false 0 None [] = Returned 1 [EWaitpid 100 256; EFork 100]
  /\ @parse_command linux (Node OP_SEQUENTIAL cmd_false cmd_true) 0 None []
     = @parse_command linux cmd_true 0 None [EWaitpid 100 256; EFork 100].
Proof.
  split; [reflexivity |].
  apply (@sequential_returns_second linux cmd_false cmd_true 0 None 0 None 0 None [] 1).
  reflexivity.
Defined.

Lemma conditional_evaluation_witness :
  (@parse_command linux (Node OP_CONDITIONAL_NZERO cmd_false cmd_true) 0 None []
   = @parse_command linux cmd_true 0 None [EWaitpid 100 256; EFork 100]
   /\ @parse_command linux (Node OP_CONDITIONAL_ZERO cmd_false cmd_true) 0 None []
      = Returned 1 [EWaitpid 100 256; EFork 100])
  /\ (@parse_command linux (Node OP_CONDITIONAL_NZERO cmd_true cmd_false) 0 None []
      = Returned 0 [EWaitpid 100 0; EFork 100]
      /\ @parse_command linux (Node OP_CONDITIONAL_ZERO cmd_true cmd_false) 0 None []
         = @parse_command linux cmd_false 0 None [EWaitpid 100 0; EFork 100]).
Proof.
  split.
  - destruct (@conditional_evaluation linux cmd_false cmd_true 0 None 0 None 0 None
                [] 1 [EWaitpid 100 256; EFork 100] eq_refl) as (Hnz & _ & _ & Hz).
    split; [apply Hnz | apply Hz]; lia.
  - destruct (@conditional_evaluation linux cmd_true cmd_false 0 None 0 None 0 None
                [] 0 [EWaitpid 100 0; EFork 100] eq_refl) as (_ & Hnz & Hz & _).
    split; [apply Hnz | apply Hz]; reflexivity.
Defined.

Lemma unknown_operator_returns_sentinel_witness :
  @parse_command linux (Node (OP_other 0) cmd_true cmd_false) 0 None [] = Returned (-100) [].
Proof.
  apply (@unknown_operator_returns_sentinel linux (OP_other 0) cmd_true cmd_false 0 None []);
    discriminate.
Defined.

(** C5, refuted as stated: in [SEQUENTIAL(exit, true)] the left subtree
    yields the sentinel, and the node goes on to run [true] and returns
    its status 0; in [IF_NONZERO(exit, true)] likewise. *)
Lemma sentinel_not_propagated :
  @parse_command linux cmd_exit 1 None [] = Returned (@SHELL_EXIT linux) []
  /\ @parse_command linux (Node OP_SEQUENTIAL cmd_exit cmd_true) 0 None []
     = Returned 0 [EWaitpid 100 0; EFork 100]
  /\ @parse_command linux (Node OP_CONDITIONAL_NZERO cmd_exit cmd_true) 0 None []
     = Returned 0 [EWaitpid 100 0; EFork 100]
  /\ @SHELL_EXIT linux <> 0.
Proof. repeat split. discriminate. Qed.

Lemma sentinel_in_left_subtree_witness :
  @parse_command linux (Node OP_CONDITIONAL_ZERO cmd_exit cmd_true) 0 None []
  = Returned (-100) []
  /\ @parse_command linux (Node OP_SEQUENTIAL cmd_exit cmd_true) 0 None []
     = @parse_command linux cmd_true 0 None []
  /\ @parse_command linux (Node OP_CONDITIONAL_NZERO cmd_exit cmd_true) 0 None []
     = @parse_command linux cmd_true 0 None [].
Proof.
  apply (@sentinel_in_left_subtree linux cmd_exit cmd_true 0 None 0 None 0 None [] []).
  - discriminate.
  - reflexivity.
Defined.

Lemma parallel_status_witness :
  @parse_command linux (Node OP_PARALLEL cmd_true cmd_true) 0 None []
  = Returned 1 [EWaitpid 101 0; EWaitpid 100 0; EFork 101; EFork 100]
  /\ @parse_command linux (Node OP_PARALLEL cmd_true cmd_false) 0 None []
     = Returned 0 [EWaitpid 101 256; EWaitpid 100 0; EFork 101; EFork 100].
Proof.
  split.
  - apply (@parallel_status linux cmd_true cmd_true 0 None [] 100 101 0 0); reflexivity.
  - apply (@parallel_status linux cmd_true cmd_false 0 None [] 100 101 0 256); reflexivity.
Defined.

Lemma pipe_status_witness :
  WEXITSTATUS 512 = 2
  /\ @parse_command linux (Node OP_PIPE cmd_true cmd_ls_nonexistent) 0 None []
     = Returned 1 [EWaitpid 102 512; EWaitpid 101 0; EClose 4; EClose 3;
                   EFork 102; EFork 101; EPipe (Some (3, 4))].
Proof.
  split; [reflexivity |].
  apply (@pipe_status linux cmd_true cmd_ls_nonexistent 0 None [] 3 4 101 102 0 512);
    reflexivity.
Defined.

Lemma exec_failure_status_witness :
  @execute_external_command linux (simple (word "no-such-program") None) []
  = Returned 0 [EWaitpid 100 0; EFork 100].
Proof.
  apply (@exec_failure_status linux (simple (word "no-such-program") None) [] 100 [EFork 0]);
    reflexivity.
Defined.

Lemma creation_failure_status_witness :
  @execute_external_command (machine 0 true) (simple (word "true") None) []
  = Returned 0 [EFork (-1)]
  /\ @parse_command (machine 0 true) (Node OP_PARALLEL cmd_true cmd_true) 0 None []
     = Returned 0 [EFork (-1)]
  /\ @parse_command (machine 1 true) (Node OP_PARALLEL cmd_true cmd_true) 0 None []
     = Returned 0 [EFork (-1); EFork 100]
  /\ @parse_command (machine 40 false) (Node OP_PIPE cmd_true cmd_true) 0 None []
     = Returned 0 [EPipe None]
  /\ @parse_command (machine 0 true) (Node OP_PIPE cmd_true cmd_true) 0 None []
     = Returned 0 [EFork (-1); EPipe (Some (3, 4))]
  /\ @parse_command (machine 1 true) (Node OP_PIPE cmd_true cmd_true) 0 None []
     = Returned 0 [EFork (-1); EFork 101; EPipe (Some (3, 4))].
Proof.
  destruct (@creation_failure_status (machine 0 true) (simple (word "true") None)
              cmd_true cmd_true 0 None []) as (H1 & H2 & _ & _ & H5 & _).
  destruct (@creation_failure_status (machine 1 true) (simple (word "true") None)
              cmd_true cmd_true 0 None []) as (_ & _ & H3 & _ & _ & H6).
  destruct (@creation_failure_status (machine 40 false) (simple (word "true") None)
              cmd_true cmd_true 0 None []) as (_ & _ & _ & H4 & _ & _).
  repeat apply conj.
  - apply H1; reflexivity.
  - apply H2; reflexivity.
  - apply (H3 100); reflexivity.
  - apply H4; reflexivity.
  - apply (H5 (3, 4)); reflexivity.
  - apply (H6 (3, 4) 101); reflexivity.
Defined.

Lemma assignment_status_witness :
  @parse_simple linux (Some (simple (Word "FOO" (Some (word "="))) None)) 0 None []
  = Returned 0 []
  /\ @parse_simple linux
       (Some (simple (Word "a=b" (Some (Word "=" (Some (word "1"))))) None)) 0 None []
     = Returned (-1) [ESetenv "a=b" "1" 1 (-1)].
Proof.
  split.
  - refine (proj1 (@assignment_status linux
                     (simple (Word "FOO" (Some (word "="))) None)
                     0 None [] (word "=") _ _ _ eq_refl) _);
      try discriminate.
    right; reflexivity.
  - refine (proj2 (@assignment_status linux
                     (simple (Word "a=b" (Some (Word "=" (Some (word "1"))))) None)
                     0 None [] (Word "=" (Some (word "1"))) _ _ _ eq_refl)
                  (word "1") eq_refl eq_refl);
      discriminate.
Defined.

Lemma redirection_modes_witness :
  (exists ok new,
      final (@perform_redirections linux
               (mk_simple_command (word "make") None None (Some (word "build.log")) (Some (word "errors.log")) 2) [])
      = Some (ok, (new ++ [])%list)
      /\ ok = no_failure new
      /\ write_opens new = [("build.log"%string, append_mode); ("errors.log"%string, truncate_mode)]
      /\ (ok = true -> write_opens new = [("build.log"%string, append_mode); ("errors.log"%string, truncate_mode)]))
  /\ (exists ok new,
      final (@perform_redirections linux
               (mk_simple_command (word "make") None None (Some (word "/nonexistent")) (Some (word "errors.log")) 2) [])
      = Some (ok, (new ++ [])%list)
      /\ ok = no_failure new
      /\ write_opens new = [("/nonexistent"%string, append_mode)]
      /\ (ok = true -> write_opens new = [("/nonexistent"%string, append_mode); ("errors.log"%string, truncate_mode)]))
  /\ (exists ok new,
      final (@perform_redirections linux
               (mk_simple_command (word "make") None None (Some (word "build.log")) None 1) [])
      = Some (ok, (new ++ [])%list)
      /\ ok = no_failure new
      /\ write_opens new = [("build.log"%string, append_mode)]
      /\ (ok = true -> write_opens new = [("build.log"%string, append_mode)]))
  /\ (exists ok new,
      final (@perform_redirections linux
               (mk_simple_command (word "make") None None (Some (word "build.log")) None 0) [])
      = Some (ok, (new ++ [])%list)
      /\ ok = no_failure new
      /\ write_opens new = [("build.log"%string, truncate_mode)]
      /\ (ok = true -> write_opens new = [("build.log"%string, truncate_mode)]))
  /\ (exists ok new,
      final (@perform_redirections linux
               (mk_simple_command (word "make") None None None (Some (word "errors.log")) 2) [])
      = Some (ok, (new ++ [])%list)
      /\ ok = no_failure new
      /\ write_opens new = [("errors.log"%string, append_mode)]
      /\ (ok = true -> write_opens new = [("errors.log"%string, append_mode)]))
  /\ (exists ok new,
      final (@perform_redirections linux
               (mk_simple_command (word "make") None None None (Some (word "errors.log")) 1) [])
      = Some (ok, (new ++ [])%list)
      /\ ok = no_failure new
      /\ write_opens new = [("errors.log"%string, truncate_mode)]
      /\ (ok = true -> write_opens new = [("errors.log"%string, truncate_mode)])).
Proof.
  repeat apply conj.
  - exact (proj1 (@redirection_modes linux
                       (mk_simple_command (word "make") None None (Some (word "build.log")) (Some (word "errors.log")) 2) [])
                  [] eq_refl).
  - exact (proj1 (@redirection_modes linux
                       (mk_simple_command (word "make") None None (Some (word "/nonexistent")) (Some (word "errors.log")) 2) [])
                  [] eq_refl).
  - exact (proj1 (@redirection_modes linux
                       (mk_simple_command (word "make") None None (Some (word "build.log")) None 1) [])
                  [] eq_refl).
  - exact (proj1 (@redirection_modes linux
                       (mk_simple_command (word "make") None None (Some (word "build.log")) None 0) [])
                  [] eq_refl).
  - exact (proj1 (@redirection_modes linux
                       (mk_simple_command (word "make") None None None (Some (word "errors.log")) 2) [])
                  [] eq_refl).
  - exact (proj1 (@redirection_modes linux
                       (mk_simple_command (word "make") None None None (Some (word "errors.log")) 1) [])
                  [] eq_refl).
Defined.

(** ** Further properties of the evaluator *)

Section TreeInduction.

Context {os : OS}.

(** A property of computations that [ret] has and [bind] keeps. *)
Variable Q : forall A : Type, M A -> Prop.
Hypothesis Q_ret : forall (A : Type) (a : A), Q A (ret a).
Hypothesis Q_bind :
  forall (A B : Type) (m : M A) (k : A -> M B),
    Q A m -> (forall a, Q B (k a)) -> Q B (bind m k).

(** Induction over the tree: what holds of the leaves that the process
    evaluates itself and of the two forking operators holds of the
    evaluator. *)
Lemma parse_command_induction (good : simple_command_t -> bool) :
  (forall s level father,
      good s = true -> Q Z (parse_simple (Some s) level father)) ->
  (forall A B level father, Q bool (run_in_parallel parse_command A B level father)) ->
  (forall A B level father, Q bool (run_on_pipe parse_command A B level father)) ->
  forall c level father,
    shell_leaves good c = true -> Q Z (parse_command c level father).
Proof.
  intros Hsimple Hparallel Hpipe.
  induction c as [[s |] | op cmd1 IH1 cmd2 IH2]; intros level father Hc.
  - now apply Hsimple.
  - apply Q_ret.
  - destruct op; cbn [parse_command]; cbn [shell_leaves] in Hc;
      try (apply andb_prop in Hc; destruct Hc as [Hc1 Hc2]).
    + apply Q_bind; [now apply IH1 |]. intros _.
      apply Q_bind; [now apply IH2 |]. intros; apply Q_ret.
    + apply Q_bind; [apply Hparallel |]. intros; apply Q_ret.
    + apply Q_bind; [now apply IH1 |]. intros a.
      destruct (a =? 0); [| apply Q_ret].
      apply Q_bind; [now apply IH2 |]. intros; apply Q_ret.
    + apply Q_bind; [now apply IH1 |]. intros a.
      destruct (negb (a =? 0)); [| apply Q_ret].
      apply Q_bind; [now apply IH2 |]. intros; apply Q_ret.
    + apply Q_bind; [apply Hpipe |]. intros; apply Q_ret.
    + apply Q_ret.
Qed.

End TreeInduction.

Section Growth.

Variable P : list event -> Prop.
Hypothesis P_nil : P [].
Hypothesis P_app : forall new1 new2, P new1 -> P new2 -> P (new2 ++ new1)%list.

Lemma grows_ret (A : Type) (a : A) : grows P (ret a).
Proof.
  intros h a' h' E. inversion E; subst. now exists [].
Qed.

Lemma grows_bind (A B : Type) (m : M A) (k : A -> M B) :
  grows P m -> (forall a, grows P (k a)) -> grows P (bind m k).
Proof.
  intros Gm Gk h b h' E. unfold bind in E.
  destruct (m h) as [a h1 | |] eqn:Em; try discriminate.
  destruct (Gm _ _ _ Em) as (new1 & -> & P1).
  destruct (Gk a _ _ _ E) as (new2 & -> & P2).
  exists (new2 ++ new1)%list. rewrite app_assoc. auto.
Qed.

End Growth.

Lemma survives_ret (A : Type) (a : A) : survives (ret a).
Proof. intros h status h'. discriminate. Qed.

Lemma survives_bind (A B : Type) (m : M A) (k : A -> M B) :
  survives m -> (forall a, survives (k a)) -> survives (bind m k).
Proof.
  intros Sm Sk h status h' E. unfold bind in E.
  destruct (m h) as [a h1 | st h1 |] eqn:Em; try discriminate.
  - exact (Sk a _ _ _ E).
  - exact (Sm _ _ _ Em).
Qed.

Section Further.

Context {os : OS}.

Lemma calls_app {A : Type} (pick : event -> list A) (new1 new2 : list event) :
  calls pick (new2 ++ new1) = (calls pick new1 ++ calls pick new2)%list.
Proof. unfold calls. now rewrite rev_app_distr, flat_map_app. Qed.

(** *** The calls each function adds when it returns *)

(** Unfolds one redirection that has returned and walks through its
    [DIE] tests, keeping what they have established. *)
Ltac returned_redirection E :=
  unfold bind, get_word, sys_open, DIE, sys_dup2, sys_close, ret, exit_ in E;
  repeat match type of E with
         | context [if ?c =? -1 then _ else _] =>
             let N := fresh "N" in
             destruct (c =? -1) eqn:N; [discriminate E | apply Z.eqb_neq in N]
         end;
  inversion E; subst; clear E.

Lemma redirect_input_returns i h h' :
  redirect_input i h = Returned tt h' ->
  exists fd rc,
    fd <> -1 /\ rc <> -1
    /\ h' = EClose fd :: EDup2 fd STDIN_FILENO rc
            :: EOpen (os_get_word h i) [O_RDONLY] None fd :: h.
Proof.
  intros E. unfold redirect_input in E. returned_redirection E.
  eexists _, _. refine (conj _ (conj _ eq_refl)); assumption.
Qed.

Lemma redirect_output_returns o flags h h' :
  redirect_output o flags h = Returned tt h' ->
  exists fd rc,
    fd <> -1 /\ rc <> -1
    /\ h' = EClose fd :: EDup2 fd STDOUT_FILENO rc
            :: EOpen (os_get_word h o)
                 (if flags =? IO_OUT_APPEND then append_mode else truncate_mode)
                 (Some 420) fd
            :: h.
Proof.
  intros E. unfold redirect_output in E.
  destruct (flags =? IO_OUT_APPEND); returned_redirection E;
    eexists _, _; refine (conj _ (conj _ eq_refl)); assumption.
Qed.

Lemma redirect_error_returns e flags h h' :
  redirect_error e flags h = Returned tt h' ->
  exists fd rc,
    fd <> -1 /\ rc <> -1
    /\ h' = EClose fd :: EDup2 fd STDERR_FILENO rc
            :: EOpen (os_get_word h e)
                 (if flags =? IO_ERR_APPEND then append_mode else truncate_mode)
                 (Some 420) fd
            :: h.
Proof.
  intros E. unfold redirect_error in E.
  destruct (flags =? IO_ERR_APPEND); returned_redirection E;
    eexists _, _; refine (conj _ (conj _ eq_refl)); assumption.
Qed.

Lemma redirect_both_returns s h h' :
  redirect_both_out_and_err s h = Returned tt h' ->
  exists fd_out fd_err rc_out rc_err,
    fd_out <> -1 /\ fd_err <> -1 /\ rc_out <> -1 /\ rc_err <> -1
    /\ h' = EClose fd_err :: EClose fd_out
            :: EDup2 fd_err STDERR_FILENO rc_err :: EDup2 fd_out STDOUT_FILENO rc_out
            :: EOpen (os_get_word
                        (EOpen (os_get_word h (out s)) append_mode (Some 420) fd_out :: h)
                        (err s))
                 truncate_mode (Some 420) fd_err
            :: EOpen (os_get_word h (out s)) append_mode (Some 420) fd_out :: h.
Proof.
  intros E. unfold redirect_both_out_and_err in E. returned_redirection E.
  eexists _, _, _, _. refine (conj _ (conj _ (conj _ (conj _ eq_refl)))); assumption.
Qed.

Lemma execute_external_command_returns s h v h' :
  execute_external_command s h = Returned v h' ->
  (v = 0 /\ h' = EFork (-1) :: h)
  \/ (exists pid status,
        v = WEXITSTATUS status /\ h' = EWaitpid pid status :: EFork pid :: h).
Proof.
  unfold execute_external_command, bind, fork, sys_waitpid, ret.
  destruct (os_fork h) as [pid |].
  - destruct (fate _) as [status |]; [| discriminate].
    intros E. inversion E; subst. right. now exists pid, status.
  - intros E. inversion E; subst. now left.
Qed.

Lemma run_in_parallel_shape (run : command_t -> Z -> option command_t -> M Z)
    A B level father h b h' :
  run_in_parallel run A B level father h = Returned b h' ->
  (b = false /\ h' = EFork (-1) :: h)
  \/ (exists pid1, b = false /\ h' = EFork (-1) :: EFork pid1 :: h)
  \/ (exists pid1 pid2 st1 st2,
        h' = EWaitpid pid2 st2 :: EWaitpid pid1 st1 :: EFork pid2 :: EFork pid1 :: h).
Proof.
  unfold run_in_parallel, bind, fork, sys_waitpid, ret.
  destruct (os_fork h) as [pid1 |].
  - destruct (os_fork (EFork pid1 :: h)) as [pid2 |].
    + destruct (fate _) as [st1 |]; [| discriminate].
      destruct (fate _) as [st2 |]; [| discriminate].
      intros E. right. right. exists pid1, pid2, st1, st2.
      destruct (negb (WEXITSTATUS st1 =? 0)), (negb (WEXITSTATUS st2 =? 0));
        now inversion E.
    + intros E. inversion E; subst. right. left. now exists pid1.
  - intros E. inversion E; subst. now left.
Qed.

Lemma run_on_pipe_shape (run : command_t -> Z -> option command_t -> M Z)
    A B level father h b h' :
  run_on_pipe run A B level father h = Returned b h' ->
  (b = false /\ h' = EPipe None :: h)
  \/ (exists fds, b = false /\ h' = EFork (-1) :: EPipe (Some fds) :: h)
  \/ (exists fds pid1,
        b = false /\ h' = EFork (-1) :: EFork pid1 :: EPipe (Some fds) :: h)
  \/ (exists fd0 fd1 pid1 pid2 st1 st2,
        h' = EWaitpid pid2 st2 :: EWaitpid pid1 st1 :: EClose fd1 :: EClose fd0
             :: EFork pid2 :: EFork pid1 :: EPipe (Some (fd0, fd1)) :: h).
Proof.
  unfold run_on_pipe, bind at 1, sys_pipe.
  destruct (os_pipe h) as [[fd0 fd1] |].
  - unfold bind at 1, fork at 1.
    destruct (os_fork _) as [pid1 |].
    + unfold bind at 1, fork at 1.
      destruct (os_fork _) as [pid2 |].
      * destruct (fate _) as [st1 |]; destruct (fate _) as [st2 |];
          unfold bind, sys_close, sys_waitpid, ret; try discriminate.
        intros E. inversion E; subst. do 3 right.
        now exists fd0, fd1, pid1, pid2, st1, st2.
      * intros E. inversion E; subst. right. right. left. now exists (fd0, fd1), pid1.
    + intros E. inversion E; subst. right. left. now exists (fd0, fd1).
  - intros E. inversion E; subst. now left.
Qed.

(** *** Redirections *)

Lemma bind_returned_inv {A B : Type} (m : M A) (k : A -> M B) h b h' :
  bind m k h = Returned b h' ->
  exists a h0, m h = Returned a h0 /\ k a h0 = Returned b h'.
Proof.
  unfold bind. destruct (m h) as [a h0 | |]; try discriminate.
  intros E. now exists a, h0.
Qed.

Ltac added_to h :=
  match goal with
  | |- exists new, ?l = (new ++ h)%list /\ _ =>
      let p := prefix_of l h in exists p; split; [reflexivity |]
  end.

(** Takes a returned [perform_redirections] apart, target by target. *)
Ltac redirection_cases s h h' E :=
  unfold perform_redirections in E;
  apply bind_returned_inv in E; destruct E as ([] & h0 & Ein & Eout);
  let I := fresh "I" in
  let O := fresh "O" in
  let R := fresh "R" in
  destruct (in_ s) as [i |] eqn:I;
    [ apply redirect_input_returns in Ein;
      destruct Ein as (fd_in & rc_in & Nin & Din & ->)
    | assert (h0 = h) by (inversion Ein; reflexivity); subst h0; clear Ein ];
    (destruct (out s) as [o |] eqn:O; destruct (err s) as [e |] eqn:R;
     [ apply redirect_both_returns in Eout;
       destruct Eout as (fd_out & fd_err & rc_out & rc_err
                         & Nout & Nerr & Dout & Derr & ->)
     | apply redirect_output_returns in Eout;
       destruct Eout as (fd_out & rc_out & Nout & Dout & ->)
     | apply redirect_error_returns in Eout;
       destruct Eout as (fd_err & rc_err & Nerr & Derr & ->)
     | match type of Eout with
       | _ ?h1 = _ => assert (h' = h1) by (inversion Eout; reflexivity)
       end; subst h'; clear Eout ]).

(** Shows the calls of a returned [perform_redirections]: first the
    lists, then the history they make up, then that nothing failed. *)
Ltac exhibit_redirection_calls :=
  (refine (conj _ (conj _ _));
   [ idtac
   | first [ reflexivity | eexists _, _; refine (conj _ (conj _ eq_refl)) ]
   | first [ reflexivity
           | eexists _, _; refine (conj _ (conj _ eq_refl))
           | eexists _, _, _, _;
             refine (conj _ (conj _ (conj _ (conj _ eq_refl)))) ] ];
   try reflexivity);
  assumption.

(** X11: when [perform_redirections] returns, it has made these calls
    and no others, in this order: for the input target, then for the
    output and error targets, an [open] of the resolved target that did
    not fail, a [dup2] of the descriptor it gave onto the standard
    descriptor of the target (0, 1, 2) that did not fail, and then a
    [close] of that descriptor; with both an output and an error
    target, the two [open] calls, then the two [dup2] calls, then the
    two [close] calls. *)
Theorem redirections_attach_and_close (s : simple_command_t) h h' :
  perform_redirections s h = Returned tt h' ->
  exists calls_in calls_out,
    h' = (rev (calls_in ++ calls_out) ++ h)%list
    /\ redirection_calls s h calls_in calls_out.
Proof.
  intros E. redirection_cases s h h' E;
    eexists _, _; unfold redirection_calls; rewrite ?I, ?O, ?R;
    exhibit_redirection_calls.
Qed.

(** What else the shell's own [cd] needs to know of them. *)
Lemma perform_redirections_returns (s : simple_command_t) h h' :
  perform_redirections s h = Returned tt h' ->
  exists new,
    h' = (new ++ h)%list
    /\ Forall (fun e => descriptor_event e = true) new
    /\ (in_ s = None -> out s = None -> err s = None -> new = []).
Proof.
  intros E. redirection_cases s h h' E; added_to h;
    (split; [repeat constructor | intros; congruence]).
Qed.

(** *** Leaves *)

Lemma no_targets (s : simple_command_t) :
  is_null (in_ s) && is_null (out s) && is_null (err s) = true ->
  in_ s = None /\ out s = None /\ err s = None.
Proof. destruct (in_ s), (out s), (err s); cbn; intuition congruence. Qed.

Lemma perform_no_redirections (s : simple_command_t) h :
  in_ s = None -> out s = None -> err s = None ->
  perform_redirections s h = Returned tt h.
Proof. intros I O R. unfold perform_redirections. now rewrite I, O, R. Qed.

(** What a leaf returns, and the calls it has added by then. *)
Lemma parse_simple_returns (s : simple_command_t) level father h v h' :
  parse_simple (Some s) level father h = Returned v h' ->
  (h' = h /\ (v = SHELL_EXIT \/ v = 0))
  \/ (exists new dir rc,
        h' = (EChdir dir rc :: new ++ h)%list
        /\ Forall (fun e => descriptor_event e = true) new
        /\ (redirected_cd s = false -> new = [])
        /\ (v = 0 \/ v = 1))
  \/ (exists name value,
        h' = ESetenv name value 1 v :: h /\ v = os_setenv h name value 1)
  \/ (v = 0 /\ h' = EFork (-1) :: h)
  \/ (exists pid status,
        v = WEXITSTATUS status /\ h' = EWaitpid pid status :: EFork pid :: h).
Proof.
  unfold parse_simple, shell_exit.
  destruct (str (verb s) =? "exit")%string;
    [intros E; inversion E; subst; left; auto |].
  destruct (str (verb s) =? "quit")%string;
    [intros E; inversion E; subst; left; auto |].
  destruct (str (verb s) =? "cd")%string eqn:Ecd.
  - intros E. apply bind_returned_inv in E. destruct E as (b & h1 & E & Eb).
    unfold complete_cd_command in E.
    apply bind_returned_inv in E. destruct E as ([] & h0 & Er & Ec).
    apply perform_redirections_returns in Er. destruct Er as (new & -> & D & Z).
    unfold shell_cd, bind, get_word, sys_chdir, ret in Ec, Eb.
    inversion Ec; subst. inversion Eb; subst.
    right. left. eexists new, _, _. split; [reflexivity |]. split; [exact D |]. split.
    + unfold redirected_cd. rewrite Ecd. cbn [andb]. intros N.
      apply negb_false_iff, no_targets in N. destruct N as (I & O & R). auto.
    + destruct (bool_of_int _); auto.
  - destruct (next_part (verb s)) as [np |] eqn:N; cbn [is_null negb].
    + unfold assign_environment_variable. rewrite N.
      destruct (negb (str np =? "=")%string || is_null (next_part np)).
      * intros E. inversion E; subst. left. auto.
      * unfold bind, get_word, sys_setenv, ret. intros E. inversion E; subst.
        right. right. left. eexists _, _. split; reflexivity.
    + intros E. apply execute_external_command_returns in E.
      destruct E as [[-> ->] | (pid & status & -> & ->)].
      * do 3 right. left. auto.
      * do 4 right. now exists pid, status.
Qed.

(** X2: a [cd] leaf without redirections runs in the calling process:
    its one system call is [chdir] on the resolved [params] word, and
    it returns 0 when [chdir] returned 0 and 1 otherwise.  Further
    parts of the verb do not turn it into an assignment. *)
Theorem cd_runs_in_the_shell (s : simple_command_t) level father h :
  str (verb s) = "cd"%string ->
  in_ s = None -> out s = None -> err s = None ->
  let dir := os_get_word h (params s) in
  let rc := os_chdir h dir in
  parse_command (Leaf (Some s)) level father h
  = Returned (if rc =? 0 then 0 else 1) (EChdir dir rc :: h).
Proof.
  intros E I O R dir rc. cbn [parse_command]. unfold parse_simple. rewrite E.
  cbn [String.eqb Ascii.eqb Bool.eqb andb].
  unfold complete_cd_command.
  rewrite (bind_returned _ _ h (bool_of_int rc) (EChdir dir rc :: h)).
  - unfold ret, int_of_bool, bool_of_int. now destruct (rc =? 0).
  - rewrite (bind_returned _ _ _ _ _ (perform_no_redirections s h I O R)).
    reflexivity.
Qed.

(** *** Wait statuses *)

Lemma WEXITSTATUS_low_byte status : WEXITSTATUS status = Z.shiftr status 8 mod 256.
Proof.
  unfold WEXITSTATUS. rewrite Z.shiftr_land.
  change (Z.shiftr 65280 8) with (Z.ones 8).
  now rewrite Z.land_ones by lia.
Qed.

Lemma WEXITSTATUS_exit_status code : WEXITSTATUS (exit_status code) = code mod 256.
Proof.
  rewrite WEXITSTATUS_low_byte. unfold exit_status.
  rewrite Z.shiftr_shiftl_l by lia. cbn [Z.sub Z.shiftl Z.opp Z.pos_sub].
  change 255 with (Z.ones 8). rewrite Z.land_ones by lia.
  change (2 ^ 8) with 256. apply Z.mod_mod. lia.
Qed.

Lemma WEXITSTATUS_range status : 0 <= WEXITSTATUS status <= 255.
Proof.
  rewrite WEXITSTATUS_low_byte.
  pose proof (Z.mod_pos_bound (Z.shiftr status 8) 256). lia.
Qed.

Lemma external_leaf (s : simple_command_t) level father h :
  str (verb s) <> "exit"%string ->
  str (verb s) <> "quit"%string ->
  str (verb s) <> "cd"%string ->
  next_part (verb s) = None ->
  parse_command (Leaf (Some s)) level father h = execute_external_command s h.
Proof.
  intros E Q C N. cbn [parse_command]. unfold parse_simple.
  apply String.eqb_neq in E, Q, C. now rewrite E, Q, C, N.
Qed.

Lemma external_command_runs (s : simple_command_t) h pid hc status :
  os_fork h = Some pid ->
  perform_redirections s (EFork 0 :: h) = Returned tt hc ->
  os_execvp hc (os_get_argv hc s) = ExecReplaced (Some status) ->
  execute_external_command s h
  = Returned (WEXITSTATUS status) (EWaitpid pid status :: EFork pid :: h).
Proof.
  intros F R X. unfold execute_external_command.
  rewrite (bind_returned _ _ _ _ _ (fork_succeeded _ h pid F)).
  rewrite (bind_returned _ _ _ _ _ R).
  unfold bind at 2 3. unfold get_argv, sys_execvp. rewrite X.
  reflexivity.
Qed.

(** X3: an external command whose program calls [exit(code)] makes the
    leaf return the low byte of [code]; the calling process has forked
    once and waited once, and its redirections were applied in the
    child only. *)
Theorem external_command_exit_code (s : simple_command_t) level father h pid hc code :
  str (verb s) <> "exit"%string ->
  str (verb s) <> "quit"%string ->
  str (verb s) <> "cd"%string ->
  next_part (verb s) = None ->
  os_fork h = Some pid ->
  perform_redirections s (EFork 0 :: h) = Returned tt hc ->
  os_execvp hc (os_get_argv hc s) = ExecReplaced (Some (exit_status code)) ->
  parse_command (Leaf (Some s)) level father h
  = Returned (code mod 256) (EWaitpid pid (exit_status code) :: EFork pid :: h).
Proof.
  intros E Q C N F R X.
  rewrite (external_leaf s level father h E Q C N).
  rewrite (external_command_runs s h pid hc _ F R X).
  now rewrite WEXITSTATUS_exit_status.
Qed.

(** X4: an external command whose program is killed by a signal, so
    that its raw wait status is below 256, makes the leaf return 0:
    [WEXITSTATUS] is applied without a test of how the child ended. *)
Theorem killed_child_reported_as_zero (s : simple_command_t) level father h pid hc status :
  str (verb s) <> "exit"%string ->
  str (verb s) <> "quit"%string ->
  str (verb s) <> "cd"%string ->
  next_part (verb s) = None ->
  os_fork h = Some pid ->
  perform_redirections s (EFork 0 :: h) = Returned tt hc ->
  os_execvp hc (os_get_argv hc s) = ExecReplaced (Some status) ->
  0 < status < 256 ->
  parse_command (Leaf (Some s)) level father h
  = Returned 0 (EWaitpid pid status :: EFork pid :: h).
Proof.
  intros E Q C N F R X S.
  rewrite (external_leaf s level father h E Q C N).
  rewrite (external_command_runs s h pid hc _ F R X).
  rewrite WEXITSTATUS_low_byte, Z.shiftr_div_pow2 by lia.
  change (2 ^ 8) with 256. now rewrite (Z.div_small status 256) by lia.
Qed.

(** *** Operators *)

Lemma sequential_unfold (A B : command_t) level father h :
  parse_command (Node OP_SEQUENTIAL A B) level father h
  = (parse_command A 0 None ;; parse_command B 0 None) h.
Proof.
  cbn [parse_command]. unfold bind.
  rewrite (parse_command_context A _ _ 0 None h).
  destruct (parse_command A 0 None h) as [a h1 | |]; try reflexivity.
  rewrite (parse_command_context B _ _ 0 None h1).
  now destruct (parse_command B 0 None h1).
Qed.

Lemma conditional_nzero_unfold (A B : command_t) level father h :
  parse_command (Node OP_CONDITIONAL_NZERO A B) level father h
  = (a <- parse_command A 0 None ;;
     if a =? 0 then ret a else parse_command B 0 None) h.
Proof.
  cbn [parse_command]. unfold bind.
  rewrite (parse_command_context A _ _ 0 None h).
  destruct (parse_command A 0 None h) as [a h1 | |]; try reflexivity.
  destruct (a =? 0); cbn [negb]; [reflexivity |].
  rewrite (parse_command_context B _ _ 0 None h1).
  now destruct (parse_command B 0 None h1).
Qed.

Lemma conditional_zero_unfold (A B : command_t) level father h :
  parse_command (Node OP_CONDITIONAL_ZERO A B) level father h
  = (a <- parse_command A 0 None ;;
     if a =? 0 then parse_command B 0 None else ret a) h.
Proof.
  cbn [parse_command]. unfold bind.
  rewrite (parse_command_context A _ _ 0 None h).
  destruct (parse_command A 0 None h) as [a h1 | |]; try reflexivity.
  destruct (a =? 0); [| reflexivity].
  rewrite (parse_command_context B _ _ 0 None h1).
  now destruct (parse_command B 0 None h1).
Qed.

(** X5: the three operators that evaluate their children in the
    calling process are associative: grouping [A], [B], [C] to the left
    or to the right under [SEQUENTIAL], under [IF_ZERO] or under
    [IF_NONZERO] gives the same outcome, status and history alike. *)
Theorem sequencing_operators_associate (op : operator_t) (A B C : command_t)
    level father h :
  op = OP_SEQUENTIAL \/ op = OP_CONDITIONAL_ZERO \/ op = OP_CONDITIONAL_NZERO ->
  parse_command (Node op (Node op A B) C) level father h
  = parse_command (Node op A (Node op B C)) level father h.
Proof.
  intros [-> | [-> | ->]].
  - rewrite (sequential_unfold (Node _ A B)), (sequential_unfold A).
    unfold bind. rewrite sequential_unfold. unfold bind.
    destruct (parse_command A 0 None h) as [a h1 | |]; try reflexivity.
    now rewrite sequential_unfold.
  - rewrite (conditional_zero_unfold (Node _ A B)), (conditional_zero_unfold A).
    unfold bind. rewrite conditional_zero_unfold. unfold bind.
    destruct (parse_command A 0 None h) as [a h1 | |]; try reflexivity.
    destruct (a =? 0) eqn:Ea.
    + now rewrite conditional_zero_unfold.
    + unfold ret. now rewrite Ea.
  - rewrite (conditional_nzero_unfold (Node _ A B)), (conditional_nzero_unfold A).
    unfold bind. rewrite conditional_nzero_unfold. unfold bind.
    destruct (parse_command A 0 None h) as [a h1 | |]; try reflexivity.
    destruct (a =? 0) eqn:Ea.
    + unfold ret. now rewrite Ea.
    + now rewrite conditional_nzero_unfold.
Qed.

(** X6: a [PARALLEL] or [PIPE] node returns 0 or 1 and nothing else,
    whatever its subtrees are: neither [SHELL_EXIT] nor an exit status
    above 1 comes out of it.  And the calling process has only made
    [pipe], [fork], [close] and [waitpid] calls: no [chdir], [setenv],
    [open] or [dup2] of the subtrees happens in it. *)
Theorem forking_operators_are_isolated (op : operator_t) (A B : command_t)
    level father h v h' :
  op = OP_PARALLEL \/ op = OP_PIPE ->
  parse_command (Node op A B) level father h = Returned v h' ->
  (v = 0 \/ v = 1)
  /\ exists new, h' = (new ++ h)%list /\ Forall (fun e => process_event e = true) new.
Proof.
  intros [-> | ->] E; cbn [parse_command] in E;
    apply bind_returned_inv in E; destruct E as (b & h1 & E & Eb);
    inversion Eb; subst; (split; [destruct b; auto |]).
  - apply run_in_parallel_shape in E.
    destruct E as [[_ ->] | [(pid1 & _ & ->) | (pid1 & pid2 & st1 & st2 & ->)]];
      added_to h; repeat constructor.
  - apply run_on_pipe_shape in E.
    destruct E as [[_ ->] | [(fds & _ & ->) | [(fds & pid1 & _ & ->)
                  | (fd0 & fd1 & pid1 & pid2 & st1 & st2 & ->)]]];
      added_to h; repeat constructor.
Qed.

(** *** Invariants of the calling process *)

Lemma calls_none {A : Type} (pick : event -> list A) (new : list event) :
  Forall (fun e => pick e = []) new -> calls pick new = [].
Proof.
  intros F. unfold calls. apply Forall_rev in F.
  induction F as [| e l He _ IH]; cbn; [reflexivity |]. now rewrite He, IH.
Qed.

Lemma calls_cons {A : Type} (pick : event -> list A) (e : event) (new : list event) :
  calls pick (e :: new) = (calls pick new ++ pick e)%list.
Proof. unfold calls. cbn [rev]. rewrite flat_map_app. cbn. now rewrite app_nil_r. Qed.

Lemma descriptor_events_fork_nothing (new : list event) :
  Forall (fun e => descriptor_event e = true) new ->
  forked new = [] /\ reaped new = [].
Proof.
  intros D. split; apply calls_none; eapply Forall_impl; try exact D;
    intros [] H; try reflexivity; discriminate H.
Qed.

Lemma all_leaves (c : command_t) : shell_leaves (fun _ => true) c = true.
Proof.
  induction c as [[s |] | op cmd1 IH1 cmd2 IH2]; try reflexivity.
  cbn. rewrite IH1, IH2. now destruct op.
Qed.

(** X1: a leaf forks exactly when it is an external command.  When a
    leaf whose verb is [exit], [quit] or [cd], or has a further part,
    returns, the calling process has made no [fork] call; when any
    other leaf returns, it has made exactly one. *)
Theorem leaf_forks_iff_external (s : simple_command_t) level father h v h' :
  parse_command (Leaf (Some s)) level father h = Returned v h' ->
  exists new,
    h' = (new ++ h)%list
    /\ List.length (forked new) = if builtin_or_assignment s then 0%nat else 1%nat.
Proof.
  cbn [parse_command]. unfold parse_simple, builtin_or_assignment, shell_exit.
  destruct (str (verb s) =? "exit")%string;
    [intros E; inversion E; subst; now exists [] |].
  destruct (str (verb s) =? "quit")%string;
    [intros E; inversion E; subst; now exists [] |].
  destruct (str (verb s) =? "cd")%string; cbn [orb].
  - intros E. apply bind_returned_inv in E. destruct E as (b & h1 & E & Eb).
    unfold complete_cd_command in E.
    apply bind_returned_inv in E. destruct E as ([] & h0 & Er & Ec).
    apply perform_redirections_returns in Er. destruct Er as (new & -> & D & _).
    unfold shell_cd, bind, get_word, sys_chdir, ret in Ec, Eb.
    inversion Eb; subst h' v. inversion Ec; subst h1 b.
    eexists (EChdir _ _ :: new). split; [reflexivity |].
    destruct (descriptor_events_fork_nothing new D) as [F _].
    unfold forked in *. now rewrite calls_cons, F.
  - destruct (next_part (verb s)) as [np |] eqn:N; cbn [is_null negb].
    + unfold assign_environment_variable. rewrite N.
      destruct (negb (str np =? "=")%string || is_null (next_part np)).
      * intros E. inversion E; subst. now exists [].
      * unfold bind, get_word, sys_setenv, ret. intros E. inversion E; subst.
        added_to h. reflexivity.
    + intros E. apply execute_external_command_returns in E.
      destruct E as [[_ ->] | (pid & status & _ & ->)]; added_to h; reflexivity.
Qed.

(** X7: no child is left behind when no [fork] fails: if among the
    calls that an evaluation has added to the history no [fork]
    returned -1, then the pids reaped by [waitpid] are the pids that
    [fork] returned, in the same order. *)
Theorem children_are_reaped (c : command_t) level father h v h' :
  parse_command c level father h = Returned v h' ->
  exists new,
    h' = (new ++ h)%list
    /\ (~ In (-1) (forked new) -> reaped new = forked new).
Proof.
  revert h v h'.
  change (grows (fun new => ~ In (-1) (forked new) -> reaped new = forked new)
            (parse_command c level father)).
  apply (parse_command_induction (fun A => grows _)) with (good := fun _ => true).
  - intros. apply grows_ret. reflexivity.
  - intros. apply grows_bind; auto.
    intros new1 new2 P1 P2. unfold forked, reaped in *. rewrite !calls_app.
    intros N. rewrite P1, P2; auto; intros I; apply N, in_or_app; auto.
  - intros s l f _ h v h' E. apply parse_simple_returns in E.
    destruct E as [[-> _] | [(new & dir & rc & -> & D & _ & _)
                  | [(name & value & -> & _) | [[_ ->] | (pid & status & _ & ->)]]]].
    + now exists [].
    + exists (EChdir dir rc :: new). split; [reflexivity |].
      destruct (descriptor_events_fork_nothing new D) as [F R].
      unfold forked, reaped in *. rewrite !calls_cons, F, R. reflexivity.
    + added_to h. reflexivity.
    + added_to h. cbn. intuition.
    + added_to h. reflexivity.
  - intros A B l f h b h' E. apply run_in_parallel_shape in E.
    destruct E as [[_ ->] | [(pid1 & _ & ->) | (pid1 & pid2 & st1 & st2 & ->)]];
      added_to h; cbn; intuition.
  - intros A B l f h b h' E. apply run_on_pipe_shape in E.
    destruct E as [[_ ->] | [(fds & _ & ->) | [(fds & pid1 & _ & ->)
                  | (fd0 & fd1 & pid1 & pid2 & st1 & st2 & ->)]]];
      added_to h; cbn; intuition.
  - apply all_leaves.
Qed.

(** X8: unless a [cd] leaf with a redirection is among the leaves that
    the calling process evaluates itself, that process makes no [open],
    no [dup2] and no [execvp] call: its descriptors and its image are
    as they were when the evaluator returns. *)
Theorem shell_keeps_its_descriptors (c : command_t) level father h v h' :
  shell_leaves (fun s => negb (redirected_cd s)) c = true ->
  parse_command c level father h = Returned v h' ->
  exists new,
    h' = (new ++ h)%list /\ Forall (fun e => keeps_descriptors e = true) new.
Proof.
  intros L. revert h v h'.
  change (grows (Forall (fun e => keeps_descriptors e = true))
            (parse_command c level father)).
  apply (parse_command_induction (fun A => grows _))
    with (good := fun s => negb (redirected_cd s)).
  - intros. apply grows_ret. constructor.
  - intros. apply grows_bind; auto. intros. now apply Forall_app.
  - intros s l f G h v h' E. apply negb_true_iff in G.
    apply parse_simple_returns in E.
    destruct E as [[-> _] | [(new & dir & rc & -> & _ & Z & _)
                  | [(name & value & -> & _) | [[_ ->] | (pid & status & _ & ->)]]]].
    + now exists [].
    + rewrite (Z G). cbn [app]. added_to h. repeat constructor.
    + added_to h. repeat constructor.
    + added_to h. repeat constructor.
    + added_to h. repeat constructor.
  - intros A B l f h b h' E. apply run_in_parallel_shape in E.
    destruct E as [[_ ->] | [(pid1 & _ & ->) | (pid1 & pid2 & st1 & st2 & ->)]];
      added_to h; repeat constructor.
  - intros A B l f h b h' E. apply run_on_pipe_shape in E.
    destruct E as [[_ ->] | [(fds & _ & ->) | [(fds & pid1 & _ & ->)
                  | (fd0 & fd1 & pid1 & pid2 & st1 & st2 & ->)]]];
      added_to h; repeat constructor.
  - exact L.
Qed.

(** X9: unless a [cd] leaf with a redirection is among the leaves that
    the calling process evaluates itself, evaluating a tree never ends
    that process: [exit] is only ever called in forked children. *)
Theorem shell_survives (c : command_t) level father h status h' :
  shell_leaves (fun s => negb (redirected_cd s)) c = true ->
  parse_command c level father h <> Terminated status h'.
Proof.
  intros L. revert h status h'.
  change (survives (parse_command c level father)).
  apply (parse_command_induction (fun A => @survives A))
    with (good := fun s => negb (redirected_cd s)).
  - exact survives_ret.
  - exact survives_bind.
  - intros s l f G h st h'. apply negb_true_iff in G. unfold parse_simple, shell_exit.
    destruct (str (verb s) =? "exit")%string; [discriminate |].
    destruct (str (verb s) =? "quit")%string; [discriminate |].
    destruct (str (verb s) =? "cd")%string eqn:Ecd.
    + unfold redirected_cd in G. rewrite Ecd in G. cbn [andb] in G.
      apply negb_false_iff, no_targets in G. destruct G as (I & O & R).
      unfold complete_cd_command.
      unfold bind at 1 2. rewrite (perform_no_redirections s h I O R).
      discriminate.
    + destruct (next_part (verb s)) as [np |] eqn:N; cbn [is_null negb].
      * unfold assign_environment_variable. rewrite N.
        destruct (negb (str np =? "=")%string || is_null (next_part np));
          discriminate.
      * unfold execute_external_command, bind, fork, sys_waitpid, ret.
        destruct (os_fork h); [destruct (fate _) |]; discriminate.
  - intros A B l f h st h'.
    unfold run_in_parallel, bind, fork, sys_waitpid, ret.
    destruct (os_fork h); [| discriminate].
    destruct (os_fork _); [| discriminate].
    do 2 (destruct (fate _); [| discriminate]).
    destruct (negb _); [discriminate |]. destruct (negb _); discriminate.
  - intros A B l f h st h'.
    unfold run_on_pipe, bind at 1, sys_pipe.
    destruct (os_pipe h) as [[fd0 fd1] |]; [| discriminate].
    unfold bind at 1, fork at 1. destruct (os_fork _); [| discriminate].
    unfold bind at 1, fork at 1. destruct (os_fork _); [| discriminate].
    unfold bind, sys_close, sys_waitpid, ret.
    do 2 (destruct (fate _); [| discriminate]). discriminate.
  - exact L.
Qed.

(** X10: where [setenv] returns 0 or -1, as it does, every status the
    evaluator returns is [SHELL_EXIT] or lies between -1 and 255. *)
Theorem status_range (c : command_t) :
  (forall h name value overwrite,
      os_setenv h name value overwrite = 0 \/ os_setenv h name value overwrite = -1) ->
  forall level father h v h',
    parse_command c level father h = Returned v h' ->
    v = SHELL_EXIT \/ -1 <= v <= 255.
Proof.
  intros S.
  induction c as [[s |] | op cmd1 IH1 cmd2 IH2]; intros level father h v h' E.
  - cbn [parse_command] in E. apply parse_simple_returns in E.
    destruct E as [[_ [-> | ->]] | [(new & dir & rc & _ & _ & _ & [-> | ->])
                  | [(name & value & _ & ->) | [[-> _] | (pid & status & -> & _)]]]];
      auto; try (right; lia).
    + destruct (S h name value 1) as [-> | ->]; right; lia.
    + right. pose proof (WEXITSTATUS_range status). lia.
  - inversion E; subst. right; lia.
  - destruct op; cbn [parse_command] in E.
    + apply bind_returned_inv in E. destruct E as (a & h1 & _ & E).
      rewrite bind_ret in E. eauto.
    + apply bind_returned_inv in E. destruct E as (b & h1 & _ & E).
      inversion E; subst. right. destruct b; cbn; lia.
    + apply bind_returned_inv in E. destruct E as (a & h1 & E1 & E).
      destruct (a =? 0).
      * rewrite bind_ret in E. eauto.
      * inversion E; subst. eauto.
    + apply bind_returned_inv in E. destruct E as (a & h1 & E1 & E).
      destruct (negb (a =? 0)).
      * rewrite bind_ret in E. eauto.
      * inversion E; subst. eauto.
    + apply bind_returned_inv in E. destruct E as (b & h1 & _ & E).
      inversion E; subst. right. destruct b; cbn; lia.
    + inversion E; subst. now left.
Qed.

(** X12: the status of a conditional node tells what ran.  An
    [IF_ZERO] node returns 0 exactly when its left subtree returned 0
    and its right subtree, run next, returned 0; an [IF_NONZERO] node
    returns a status [v] other than 0 exactly when its left subtree
    returned a status other than 0 and its right subtree, run next,
    returned [v].  In both cases the history of the node is the one the
    right subtree left. *)
Theorem conditional_status_logic (A B : command_t) level father la fa lb fb h v h' :
  (parse_command (Node OP_CONDITIONAL_ZERO A B) level father h = Returned 0 h' <->
   exists h1, parse_command A la fa h = Returned 0 h1
              /\ parse_command B lb fb h1 = Returned 0 h')
  /\ (parse_command (Node OP_CONDITIONAL_NZERO A B) level father h = Returned v h'
      /\ v <> 0 <->
      exists a h1, a <> 0
                   /\ parse_command A la fa h = Returned a h1
                   /\ parse_command B lb fb h1 = Returned v h'
                   /\ v <> 0).
Proof.
  rewrite conditional_zero_unfold, conditional_nzero_unfold.
  rewrite (parse_command_context A la fa 0 None h).
  split; split.
  - intros E. apply bind_returned_inv in E. destruct E as (a & h1 & EA & EB).
    destruct (a =? 0) eqn:Ea.
    + apply Z.eqb_eq in Ea. subst a. exists h1. split; [exact EA |].
      now rewrite (parse_command_context B lb fb 0 None).
    + apply Z.eqb_neq in Ea. inversion EB; subst. contradiction.
  - intros (h1 & EA & EB). rewrite (bind_returned _ _ _ _ _ EA). cbn.
    now rewrite (parse_command_context B 0 None lb fb).
  - intros [E N]. apply bind_returned_inv in E. destruct E as (a & h1 & EA & EB).
    destruct (a =? 0) eqn:Ea.
    + apply Z.eqb_eq in Ea. subst a. inversion EB; subst. contradiction.
    + apply Z.eqb_neq in Ea. exists a, h1. repeat split; auto.
      now rewrite (parse_command_context B lb fb 0 None).
  - intros (a & h1 & Na & EA & EB & N). split; [| exact N].
    rewrite (bind_returned _ _ _ _ _ EA). apply Z.eqb_neq in Na. rewrite Na.
    now rewrite (parse_command_context B 0 None lb fb).
Qed.

(** X13: the redirections of a [cd] leaf are applied to the calling
    process itself.  When the leaf returns, that process has made, for
    each target, the [open], the [dup2] onto the standard descriptor of
    the target and the [close] that [perform_redirections] makes, none
    of which failed, and has then called [chdir] on the resolved
    [params] word; the leaf returns 0 when [chdir] returned 0 and 1
    otherwise. *)
Theorem cd_redirects_the_shell (s : simple_command_t) level father h v h' :
  str (verb s) = "cd"%string ->
  parse_command (Leaf (Some s)) level father h = Returned v h' ->
  exists calls_in calls_out,
    let h0 := (rev (calls_in ++ calls_out) ++ h)%list in
    let dir := os_get_word h0 (params s) in
    let rc := os_chdir h0 dir in
    redirection_calls s h calls_in calls_out
    /\ h' = EChdir dir rc :: h0
    /\ v = if rc =? 0 then 0 else 1.
Proof.
  intros Ecd E. cbn [parse_command] in E. unfold parse_simple in E.
  rewrite Ecd in E. cbn [String.eqb Ascii.eqb Bool.eqb andb] in E.
  apply bind_returned_inv in E. destruct E as (b & h1 & E & Eb).
  unfold complete_cd_command in E.
  apply bind_returned_inv in E. destruct E as ([] & h2 & E & Ec).
  unfold shell_cd, bind, get_word, sys_chdir, ret in Ec, Eb.
  inversion Eb; subst h' v. inversion Ec; subst h1 b. clear Eb Ec.
  assert (exists calls_in calls_out,
             h2 = (rev (calls_in ++ calls_out) ++ h)%list
             /\ redirection_calls s h calls_in calls_out)
    as (calls_in & calls_out & -> & Calls).
  { redirection_cases s h h2 E;
      eexists _, _; unfold redirection_calls; rewrite ?I, ?O, ?R;
      exhibit_redirection_calls. }
  exists calls_in, calls_out. cbv zeta. split; [exact Calls |]. split; [reflexivity |].
  unfold int_of_bool, bool_of_int. now destruct (_ =? 0).
Qed.

End Further.

(** ** The further properties at work on the machine *)

Lemma leaf_forks_iff_external_witness :
  (exists new, [EChdir "/tmp" 0] = (new ++ [])%list /\ List.length (forked new) = 0%nat)
  /\ (exists new,
         [EWaitpid 100 0; EFork 100] = (new ++ [])%list
         /\ List.length (forked new) = 1%nat).
Proof.
  split.
  - apply (@leaf_forks_iff_external linux (simple (word "cd") (Some (word "/tmp")))
             0 None [] 0).
    reflexivity.
  - apply (@leaf_forks_iff_external linux (simple (word "true") None) 0 None [] 0).
    reflexivity.
Defined.

Lemma cd_runs_in_the_shell_witness :
  @parse_command linux (command (word "cd") (Some (word "/nonexistent"))) 0 None []
  = Returned 1 [EChdir "/nonexistent" (-1)]
  /\ @parse_command linux (command (Word "cd" (Some (word "="))) (Some (word "/tmp")))
       0 None []
     = Returned 0 [EChdir "/tmp" 0].
Proof.
  split.
  - apply (@cd_runs_in_the_shell linux (simple (word "cd") (Some (word "/nonexistent")))
             0 None []); reflexivity.
  - apply (@cd_runs_in_the_shell linux
             (simple (Word "cd" (Some (word "="))) (Some (word "/tmp"))) 0 None []);
      reflexivity.
Defined.

Lemma external_command_exit_code_witness :
  @parse_command linux cmd_ls_nonexistent 0 None []
  = Returned 2 [EWaitpid 100 512; EFork 100].
Proof.
  apply (@external_command_exit_code linux
           (simple (word "ls") (Some (word "/nonexistent"))) 0 None [] 100 [EFork 0] 2);
    try discriminate; reflexivity.
Defined.

Lemma killed_child_reported_as_zero_witness :
  @parse_command linux_with_crash (command (word "crash") None) 0 None []
  = Returned 0 [EWaitpid 100 11; EFork 100].
Proof.
  apply (@killed_child_reported_as_zero linux_with_crash
           (simple (word "crash") None) 0 None [] 100 [EFork 0] 11);
    try discriminate; try reflexivity.
  lia.
Defined.

Lemma sequencing_operators_associate_witness :
  @parse_command linux
    (Node OP_CONDITIONAL_ZERO (Node OP_CONDITIONAL_ZERO cmd_true cmd_false) cmd_true)
    0 None []
  = @parse_command linux
      (Node OP_CONDITIONAL_ZERO cmd_true (Node OP_CONDITIONAL_ZERO cmd_false cmd_true))
      0 None [].
Proof.
  apply (@sequencing_operators_associate linux OP_CONDITIONAL_ZERO).
  right. left. reflexivity.
Defined.

Lemma forking_operators_are_isolated_witness :
  (1 = 0 \/ 1 = 1)
  /\ exists new,
       [EWaitpid 102 39936; EWaitpid 101 0; EClose 4; EClose 3;
        EFork 102; EFork 101; EPipe (Some (3, 4))] = (new ++ [])%list
       /\ Forall (fun e => process_event e = true) new.
Proof.
  apply (@forking_operators_are_isolated linux OP_PIPE
           (command (word "cd") (Some (word "/tmp"))) cmd_exit 0 None []).
  - right. reflexivity.
  - reflexivity.
Defined.

Lemma children_are_reaped_witness :
  exists new,
    [EWaitpid 104 0; EWaitpid 103 256; EClose 4; EClose 3; EFork 104; EFork 103;
     EPipe (Some (3, 4)); EWaitpid 100 0; EFork 100] = (new ++ [])%list
    /\ (~ In (-1) (forked new) -> reaped new = forked new).
Proof.
  apply (@children_are_reaped linux
           (Node OP_SEQUENTIAL cmd_true (Node OP_PIPE cmd_false cmd_true)) 0 None [] 0).
  reflexivity.
Defined.

Lemma shell_keeps_its_descriptors_witness :
  exists new,
    [EWaitpid 101 0; EFork 101; EChdir "/tmp" 0] = (new ++ [])%list
    /\ Forall (fun e => keeps_descriptors e = true) new.
Proof.
  apply (@shell_keeps_its_descriptors linux
           (Node OP_SEQUENTIAL (command (word "cd") (Some (word "/tmp")))
              (Leaf (Some (mk_simple_command (word "true") None None
                             (Some (word "log")) None 0))))
           0 None [] 0);
    reflexivity.
Defined.

Lemma shell_survives_witness :
  @parse_command linux
    (Node OP_CONDITIONAL_NZERO
       (Leaf (Some (mk_simple_command (word "true") None
                      (Some (word "/nonexistent")) None None 0)))
       cmd_exit)
    0 None []
  <> Terminated 256 [].
Proof.
  apply (@shell_survives linux). reflexivity.
Defined.

Lemma status_range_witness :
  2 = @SHELL_EXIT linux \/ -1 <= 2 <= 255.
Proof.
  apply (@status_range linux cmd_ls_nonexistent) with (level := 0) (father := None)
    (h := []) (h' := [EWaitpid 100 512; EFork 100]).
  - intros h name value overwrite. cbn. destruct (valid_name name); auto.
  - reflexivity.
Defined.

Lemma redirections_attach_and_close_witness :
  exists calls_in calls_out,
    [EClose 4; EClose 3; EDup2 4 2 2; EDup2 3 1 1;
     EOpen "errors.log" truncate_mode (Some 420) 4;
     EOpen "build.log" append_mode (Some 420) 3;
     EClose 3; EDup2 3 0 0; EOpen "Makefile" [O_RDONLY] None 3]
    = (rev (calls_in ++ calls_out) ++ [])%list
    /\ @redirection_calls linux
         (mk_simple_command (word "make") None (Some (word "Makefile"))
            (Some (word "build.log")) (Some (word "errors.log")) 0)
         [] calls_in calls_out.
Proof.
  apply (@redirections_attach_and_close linux
           (mk_simple_command (word "make") None (Some (word "Makefile"))
              (Some (word "build.log")) (Some (word "errors.log")) 0) []).
  reflexivity.
Defined.

Lemma conditional_status_logic_witness :
  @parse_command linux (Node OP_CONDITIONAL_ZERO cmd_true cmd_true) 0 None []
  = Returned 0 [EWaitpid 102 0; EFork 102; EWaitpid 100 0; EFork 100]
  /\ (@parse_command linux (Node OP_CONDITIONAL_NZERO cmd_ls_nonexistent cmd_false)
        0 None []
      = Returned 1 [EWaitpid 102 256; EFork 102; EWaitpid 100 512; EFork 100]
      /\ 1 <> 0).
Proof.
  split.
  - apply (proj1 (@conditional_status_logic linux cmd_true cmd_true
                    0 None 0 None 0 None [] 0 _)).
    exists [EWaitpid 100 0; EFork 100]. split; reflexivity.
  - apply (proj2 (@conditional_status_logic linux cmd_ls_nonexistent cmd_false
                    0 None 0 None 0 None [] 1 _)).
    exists 2, [EWaitpid 100 512; EFork 100].
    refine (conj _ (conj eq_refl (conj eq_refl _))); discriminate.
Defined.

Lemma cd_redirects_the_shell_witness :
  exists calls_in calls_out,
    @redirection_calls linux
      (mk_simple_command (word "cd") (Some (word "/tmp")) None
         (Some (word "log")) None 0)
      [] calls_in calls_out
    /\ [EChdir "/tmp" 0; EClose 3; EDup2 3 1 1; EOpen "log" truncate_mode (Some 420) 3]
       = EChdir "/tmp" 0 :: (rev (calls_in ++ calls_out) ++ [])%list
    /\ 0 = 0.
Proof.
  destruct (@cd_redirects_the_shell linux
              (mk_simple_command (word "cd") (Some (word "/tmp")) None
                 (Some (word "log")) None 0) 0 None [] 0
              [EChdir "/tmp" 0; EClose 3; EDup2 3 1 1;
               EOpen "log" truncate_mode (Some 420) 3]
              eq_refl eq_refl) as (calls_in & calls_out & C & H & V).
  exists calls_in, calls_out. split; [exact C |]. split; [exact H | exact V].
Defined.
